(** * gSims MJPEG relay: a shallow embedding of the two server variants

    The repository ships two deployments of one relay:
    - [server.js]: the signed-token (JWT, HS256) variant, module [Token];
    - the second server file (shared-secret digest, admin code, uploader
      registry), module [Digest].
    Both share the in-memory store, the watcher registry and [pushFrame];
    these live in module [Relay].

    JavaScript [Map]s keyed by the session id are finite maps
    ([gmap string _]); a JavaScript [Set] of connection objects is a list of
    object identities in insertion order; a handler that may throw runs in a
    small state-and-exception monad whose state carries the maps and the
    trace of calls made on sockets and responses. *)

From Stdlib Require Import Ascii.
From stdpp Require Import gmap strings list fin_maps pretty.

(** ** JavaScript values that the handlers inspect *)

Module JS.

(** Object identity of a response ([res]) or of a WebSocket ([ws]). *)
Definition handle := nat.

(** A Node [Buffer]. *)
Definition Buffer := list Byte.byte.

(** [Set] of objects, in insertion order. *)
Definition set_add (x : handle) (s : list handle) : list handle :=
  if decide (x ∈ s) then s else s ++ [x].

Definition set_delete (x : handle) (s : list handle) : list handle :=
  filter (λ y, y ≠ x) s.

(** Truthiness of a string: only the empty string is falsy. *)
Definition truthy (s : string) : bool :=
  match s with EmptyString => false | String _ _ => true end.

(** [x || d] where [x] is a string, [null] or [undefined]. *)
Definition or_default (x : option string) (d : string) : string :=
  match x with
  | Some s => if truthy s then s else d
  | None => d
  end.

Global Arguments or_default : simpl never.

(** [x || null] for an environment variable. *)
Definition or_null (x : option string) : option string :=
  match x with
  | Some s => if truthy s then Some s else None
  | None => None
  end.

(** A parsed query-string value: [qs] yields a string, or an array when
    the key is repeated. *)
Inductive qval :=
| QStr (s : string)
| QArr (l : list string).

(** [typeof v === 'string'] *)
Definition as_string (v : option qval) : option string :=
  match v with
  | Some (QStr s) => Some s
  | _ => None
  end.

Fixpoint join_comma (l : list string) : string :=
  match l with
  | [] => EmptyString
  | [x] => x
  | x :: l' => x +:+ "," +:+ join_comma l'
  end.

(** [String(v)] *)
Definition to_String (v : qval) : string :=
  match v with
  | QStr s => s
  | QArr l => join_comma l
  end.

(** Truthiness of a query value: arrays are objects, hence truthy. *)
Definition qtruthy (v : option qval) : bool :=
  match v with
  | Some (QStr s) => truthy s
  | Some (QArr _) => true
  | None => false
  end.

Definition CRLF : string := String (Ascii.ascii_of_nat 13) (String (Ascii.ascii_of_nat 10) EmptyString).

(** [String.prototype.trim] on strings of Latin-1 characters. *)
Definition is_space (a : ascii) : bool :=
  let n := Ascii.nat_of_ascii a in
  ((9 <=? n) && (n <=? 13)) || (n =? 32) || (n =? 160).

Fixpoint trim_start (s : string) : string :=
  match s with
  | String a s' => if is_space a then trim_start s' else s
  | EmptyString => EmptyString
  end.

Fixpoint trim_end (s : string) : string :=
  match s with
  | String a s' =>
      match trim_end s' with
      | EmptyString => if is_space a then EmptyString else String a EmptyString
      | t => String a t
      end
  | EmptyString => EmptyString
  end.

Definition trim (s : string) : string := trim_end (trim_start s).

(** [s.startsWith(p)] and [s.slice(n)] *)
Definition startsWith (p s : string) : bool := String.prefix p s.

Fixpoint slice (n : nat) (s : string) : string :=
  match n, s with
  | 0, _ => s
  | S n', String _ s' => slice n' s'
  | S _, EmptyString => EmptyString
  end.

End JS.

(** ** The relay core shared by both servers *)

Module Relay.
Import JS.

(** What one [res.write] call is given. *)
Inductive chunk :=
| Str (s : string)
| Bin (b : Buffer).

(** What the handlers do to responses and sockets, in program order:
    [ResWrite] is a write that went through; [ResEnd] and [WsClose] are
    calls of [res.end()] and [ws.close(code, reason)], whether or not the
    call then threw (the handlers swallow that). *)
Inductive effect :=
| ResWrite (res : handle) (data : chunk)
| ResEnd (res : handle)
| WsClose (ws : handle) (code : nat) (reason : string).

(** [latest]: sid64 -> latest JPEG; [watchers]: sid64 -> Set(res);
    [uploaders]: sid64 -> Set(ws) (second server only). *)
Record relay := mkRelay {
  latest : gmap string Buffer;
  watchers : gmap string (list handle);
  uploaders : gmap string (list handle);
  trace : list effect
}.

Definition init : relay := mkRelay ∅ ∅ ∅ [].

(** The three writes of one multipart part. *)
Inductive wstep := AtHead | AtBody | AtTail.

Global Instance wstep_eq_dec : EqDecision wstep.
Proof. solve_decision. Defined.

(** How the peers behave during one handler run: which write (if any)
    throws on a response, whether [res.end()] throws, whether
    [ws.close()] throws. *)
Record world := mkWorld {
  write_fault : handle → option wstep;
  end_throws : handle → bool;
  close_throws : handle → bool
}.

Definition calm : world := mkWorld (λ _, None) (λ _, false) (λ _, false).

(** *** State and exceptions *)

Inductive outcome (A : Type) :=
| Normal (a : A)
| Thrown.
Global Arguments Normal {A} a.
Global Arguments Thrown {A}.

Definition M (A : Type) : Type := relay → outcome A * relay.

Definition ret {A} (a : A) : M A := λ st, (Normal a, st).

Definition bind {A B} (m : M A) (k : A → M B) : M B :=
  λ st, match m st with
        | (Normal a, st') => k a st'
        | (Thrown, st') => (Thrown, st')
        end.

Definition throw {A} : M A := λ st, (Thrown, st).

(** [try { m } catch (e) { h }] *)
Definition try_catch {A} (m : M A) (h : M A) : M A :=
  λ st, match m st with
        | (Normal a, st') => (Normal a, st')
        | (Thrown, st') => h st'
        end.

Global Instance M_ret : MRet M := @ret.
Global Instance M_bind : MBind M := λ A B k m, bind m k.

Definition emit (e : effect) : M unit :=
  λ st, (Normal tt, mkRelay (latest st) (watchers st) (uploaders st) (trace st ++ [e])).

Definition get_latest (sid : string) : M (option Buffer) :=
  λ st, (Normal (latest st !! sid), st).

Definition latest_set (sid : string) (buf : Buffer) : M unit :=
  λ st, (Normal tt, mkRelay (<[sid := buf]> (latest st)) (watchers st) (uploaders st) (trace st)).

Definition latest_delete (sid : string) : M unit :=
  λ st, (Normal tt, mkRelay (delete sid (latest st)) (watchers st) (uploaders st) (trace st)).

Definition watchers_get (sid : string) : M (option (list handle)) :=
  λ st, (Normal (watchers st !! sid), st).

(** [if (!watchers.has(sid)) watchers.set(sid, new Set())] *)
Definition watchers_ensure (sid : string) : M unit :=
  λ st, (Normal tt,
         match watchers st !! sid with
         | Some _ => st
         | None => mkRelay (latest st) (<[sid := []]> (watchers st)) (uploaders st) (trace st)
         end).

(** [set.add(res)] / [set.delete(res)] on the Set object stored under
    [sid].  No code path of either server removes or replaces an entry of
    [watchers], so the Set a handler captured in [const set =
    watchers.get(sid)] stays the one the map holds under [sid]: mutating
    the captured Set is mutating the value at [sid] (see
    [step_watchers_keys]). *)
Definition watcher_set_add (sid : string) (res : handle) : M unit :=
  λ st, (Normal tt, mkRelay (latest st) (alter (set_add res) sid (watchers st)) (uploaders st) (trace st)).

Definition watcher_set_delete (sid : string) (res : handle) : M unit :=
  λ st, (Normal tt, mkRelay (latest st) (alter (set_delete res) sid (watchers st)) (uploaders st) (trace st)).

(** [res.write(data)]: throws when the peer's fault for this run is at
    this write, else the data goes out. *)
Definition res_write (w : world) (at_ : wstep) (res : handle) (data : chunk) : M unit :=
  if decide (write_fault w res = Some at_) then throw else emit (ResWrite res data).

Definition res_end (w : world) (res : handle) : M unit :=
  emit (ResEnd res) ;;
  if end_throws w res then throw else mret tt.

Definition ws_close (w : world) (ws : handle) (code : nat) (reason : string) : M unit :=
  emit (WsClose ws code reason) ;;
  if close_throws w ws then throw else mret tt.

(** [for (const x of set) body]: the elements present when the loop
    starts, in insertion order; the bodies below delete at most the
    element being visited, which does not disturb the iteration. *)
Fixpoint for_of {A} (l : list A) (body : A → M unit) : M unit :=
  match l with
  | [] => ret tt
  | x :: l' => body x ;; for_of l' body
  end.

(** ['--gsims\r\nContent-Type: image/jpeg\r\nContent-Length: ' +
    buf.length + '\r\n\r\n'] *)
Definition part_head (buf : Buffer) : string :=
  "--gsims" +:+ CRLF +:+ "Content-Type: image/jpeg" +:+ CRLF +:+
  "Content-Length: " +:+ pretty (length buf) +:+ CRLF +:+ CRLF.

(** The three writes of one part. *)
Definition write_part (w : world) (res : handle) (buf : Buffer) : M unit :=
  res_write w AtHead res (Str (part_head buf)) ;;
  res_write w AtBody res (Bin buf) ;;
  res_write w AtTail res (Str CRLF).

(** [pushFrame(sid, buf)], identical in both servers. *)
Definition pushFrame (w : world) (sid : string) (buf : Buffer) : M unit :=
  latest_set sid buf ;;
  set ← watchers_get sid ;
  match set with
  | None => ret tt
  | Some set =>
      for_of set (λ res,
        try_catch (write_part w res buf)
                  (try_catch (res_end w res) (ret tt) ;;
                   watcher_set_delete sid res))
  end.

(** Body of [GET /mjpg/:sid], after the guards: register the response
    and prime it with the stored frame.  [sid] is
    [String(req.params.sid || '0')]. *)
Definition mjpg_handler (w : world) (param_sid : string) (res : handle) : M unit :=
  let sid := or_default (Some param_sid) "0" in
  watchers_ensure sid ;;
  watcher_set_add sid res ;;
  buf ← get_latest sid ;
  match buf with
  | Some buf => try_catch (write_part w res buf) (ret tt)
  | None => ret tt
  end.

(** [req.on('close', () => set.delete(res))] and
    [res.on('error', () => set.delete(res))], for the handler that
    registered [res] under [sid]. *)
Definition on_watcher_gone (sid : string) (res : handle) : M unit :=
  watcher_set_delete sid res.

(** HTTP responses, as far as the handlers decide them. *)
Inductive body :=
| NoBody
| Image (b : Buffer)
| ErrorJson (error : string)
| StatusJson (mode : option string) (streams : list string)
             (nwatchers : gmap string nat) (nuploaders : option (gmap string nat))
| OkJson
| Plain (text : string)
| Page
| Multipart.

Record response := mkResponse { status : nat; payload : body }.

(** Body of [GET /jpg/:sid], after the guards.  A [Buffer] is an
    object, hence truthy even when empty. *)
Definition jpg_handler (param_sid : string) (st : relay) : response :=
  let sid := or_default (Some param_sid) "0" in
  match latest st !! sid with
  | None => mkResponse 204 NoBody
  | Some buf => mkResponse 200 (Image buf)
  end.

(** [Array.from(latest.keys())]; the order of the keys is not modelled. *)
Definition streams (st : relay) : list string := (map_to_list (latest st)).*1.

(** [Object.fromEntries(Array.from(m.entries()).map(([k, v]) => [k, v.size]))] *)
Definition sizes (m : gmap string (list handle)) : gmap string nat := length <$> m.

Definition run {A} (m : M A) (st : relay) : relay := (m st).2.

End Relay.

(** ** [server.js]: access control by signed tokens *)

Module Token.
Import JS Relay.

(** The fields of a verified token that the guards read; a field that is
    absent or not a string is [None] (it is never [===] to a string). *)
Record claims := mkClaims { c_sid : option string; c_scope : option string }.

(** [process.env] *)
Record env := mkEnv {
  GSIMS_JWT_SECRET : option string;
  GSIMS_API_KEY : option string
}.

(** [process.env.GSIMS_JWT_SECRET || null]: [None] is open mode. *)
Definition JWT_SECRET (e : env) : option string := or_null (GSIMS_JWT_SECRET e).
Definition API_KEY (e : env) : option string := or_null (GSIMS_API_KEY e).

Record request := mkRequest {
  authorization : option string;
  query_t : option qval;
  params_sid : string
}.

(** [new URL(req.url, 'http://x')] *)
Record url := mkUrl { pathname : string; searchParams : list (string * string) }.

Fixpoint searchParams_get (name : string) (ps : list (string * string)) : option string :=
  match ps with
  | [] => None
  | (k, v) :: ps' => if String.eqb k name then Some v else searchParams_get name ps'
  end.

Definition bearerOrQueryToken (req : request) : option string :=
  match authorization req with
  | Some h =>
      if truthy h && startsWith "Bearer " h then Some (trim (slice 7 h))
      else as_string (query_t req)
  | None => as_string (query_t req)
  end.

Inductive guarded :=
| Next (jwt : option claims)
| Rejected (r : response).

(** Outcome of the upgrade handler for one socket. *)
Inductive upgraded :=
| Destroyed
| Accepted (sid : string).

Definition str_is (o : option string) (s : string) : bool :=
  match o with
  | Some x => String.eqb x s
  | None => false
  end.

Section Guards.
(** [jwt.verify(tok, secret, { algorithms: ['HS256'] })] at the time of
    the request: the claims, or [None] when it throws (bad signature,
    malformed, expired). *)
Variable jwt_verify : string → string → option claims.
Variable e : env.

Definition verifyTokenOrOpen (scopeCheck : claims → request → bool)
    (req : request) : guarded :=
  match JWT_SECRET e with
  | None => Next None
  | Some secret =>
      match bearerOrQueryToken req with
      | None => Rejected (mkResponse 401 (ErrorJson "missing_token"))
      | Some tok =>
          if negb (truthy tok) then Rejected (mkResponse 401 (ErrorJson "missing_token"))
          else match jwt_verify tok secret with
               | None => Rejected (mkResponse 401 (ErrorJson "invalid_token"))
               | Some p =>
                   if negb (scopeCheck p req)
                   then Rejected (mkResponse 403 (ErrorJson "forbidden"))
                   else Next (Some p)
               end
      end
  end.

Definition viewGuard : request → guarded :=
  verifyTokenOrOpen (λ p req,
    let sid := or_default (Some (params_sid req)) EmptyString in
    str_is (c_sid p) sid && str_is (c_scope p) "view").

Definition statusGuard : request → guarded :=
  verifyTokenOrOpen (λ p _, str_is (c_scope p) "admin").

(** [GET /jpg/:sid] *)
Definition get_jpg (req : request) (st : relay) : response :=
  match viewGuard req with
  | Rejected r => r
  | Next _ => jpg_handler (params_sid req) st
  end.

(** [GET /mjpg/:sid]; [res] is the response object of this request. *)
Definition get_mjpg (w : world) (req : request) (res : handle) : M response :=
  match viewGuard req with
  | Rejected r => mret r
  | Next _ => mjpg_handler w (params_sid req) res ;; mret (mkResponse 200 Multipart)
  end.

(** [GET /status] *)
Definition get_status (req : request) (st : relay) : response :=
  match statusGuard req with
  | Rejected r => r
  | Next _ =>
      mkResponse 200
        (StatusJson (Some (match JWT_SECRET e with Some _ => "secure" | None => "open" end))
                    (streams st) (sizes (watchers st)) None)
  end.

(** [server.on('upgrade', ...)]; [None] is a request target that
    [new URL] rejects (caught by the outer [try]). *)
Definition upgrade (target : option url) : upgraded :=
  match target with
  | None => Destroyed
  | Some u =>
      if negb (String.eqb (pathname u) "/ws") then Destroyed
      else
        let sid := or_default (searchParams_get "sid" (searchParams u)) "0" in
        match JWT_SECRET e with
        | Some secret =>
            let tok := or_default (searchParams_get "t" (searchParams u)) EmptyString in
            if negb (truthy tok) then Destroyed
            else match jwt_verify tok secret with
                 | None => Destroyed
                 | Some p =>
                     if negb (str_is (c_sid p) sid && str_is (c_scope p) "upload")
                     then Destroyed
                     else Accepted sid
                 end
        | None => Accepted sid
        end
  end.
End Guards.

(** [ws.on('message', ...)] on a channel accepted with [ws.sid = sid]. *)
Definition on_message (w : world) (sid : string) (buf : Buffer) : M unit :=
  pushFrame w sid buf.

End Token.

(** ** The second server: shared-secret digest, admin code, uploaders *)

Module Digest.
Import JS Relay.

Record env := mkEnv {
  GSIMS_SHARED_SECRET : option string;
  GSIMS_ADMIN_CODE : option string
}.

(** [String(process.env.GSIMS_SHARED_SECRET || 'devsecret-change-me')] *)
Definition SHARED_SECRET (e : env) : string :=
  or_default (GSIMS_SHARED_SECRET e) "devsecret-change-me".

(** [(env && String(env)) || crypto.randomBytes(16).toString('hex')];
    [random_hex] is what the random generator returned at start-up. *)
Definition ADMIN_CODE (e : env) (random_hex : string) : string :=
  or_default (GSIMS_ADMIN_CODE e) random_hex.

Record request := mkRequest {
  query_code : option qval;
  x_gsims_code : option string;
  params_sid : string
}.

Record url := mkUrl { pathname : string; searchParams : list (string * string) }.

Fixpoint searchParams_get (name : string) (ps : list (string * string)) : option string :=
  match ps with
  | [] => None
  | (k, v) :: ps' => if String.eqb k name then Some v else searchParams_get name ps'
  end.

Inductive upgraded :=
| Destroyed
| Accepted (sid : string)
| Uncaught.

(** [crypto.timingSafeEqual] on two buffers of equal length. *)
Definition timingSafeEqual (a b : string) : bool := String.eqb a b.

Definition safeEqual (a b : string) : bool :=
  if negb (String.length a =? String.length b) then false
  else timingSafeEqual a b.

Definition uploaders_get (sid : string) : M (option (list handle)) :=
  λ st, (Normal (uploaders st !! sid), st).

(** What [POST /admin/disconnect/:sid] does once [isAdmin] has passed. *)
Definition disconnect (w : world) (param_sid : string) : M unit :=
  let sid := or_default (Some param_sid) EmptyString in
  set ← uploaders_get sid ;
  match set with
  | Some set =>
      for_of set (λ ws,
        try_catch (ws_close w ws 4000 "Admin disconnect") (mret tt))
  | None => mret tt
  end ;;
  latest_delete sid.

Section Server.
(** [crypto.createHash('sha256').update(x).digest('hex')] *)
Variable sha256_hex : string → string.
Variable e : env.
Variable random_hex : string.

Definition tokenForSidHex (sid : string) : string :=
  sha256_hex (SHARED_SECRET e +:+ ":" +:+ sid).

Definition isAdmin (req : request) : bool :=
  let codeQ := if qtruthy (query_code req)
               then from_option to_String EmptyString (query_code req)
               else EmptyString in
  let codeH := or_default (x_gsims_code req) EmptyString in
  String.eqb codeQ (ADMIN_CODE e random_hex) || String.eqb codeH (ADMIN_CODE e random_hex).

(** [GET /admin] *)
Definition get_admin (req : request) : response :=
  if negb (isAdmin req) then mkResponse 404 (Plain "Not found")
  else mkResponse 200 Page.

(** [POST /admin/disconnect/:sid] *)
Definition post_admin_disconnect (w : world) (req : request) : M response :=
  if negb (isAdmin req) then mret (mkResponse 404 (Plain "Not found"))
  else disconnect w (params_sid req) ;; mret (mkResponse 200 OkJson).

(** [server.on('upgrade', ...)]; [None] is a request target that
    [new URL] rejects: nothing catches it here. *)
Definition upgrade (target : option url) : upgraded :=
  match target with
  | None => Uncaught
  | Some u =>
      if negb (String.eqb (pathname u) "/ws") then Destroyed
      else
        let sid := or_default (searchParams_get "sid" (searchParams u)) EmptyString in
        let token := or_default (searchParams_get "token" (searchParams u)) EmptyString in
        if negb (truthy sid) || negb (truthy token)
           || negb (safeEqual (tokenForSidHex sid) token)
        then Destroyed
        else Accepted sid
  end.
End Server.

(** [GET /jpg/:sid] and [GET /mjpg/:sid]: no guard in this server. *)
Definition get_jpg (req : request) (st : relay) : response :=
  jpg_handler (params_sid req) st.

Definition get_mjpg (w : world) (req : request) (res : handle) : M response :=
  mjpg_handler w (params_sid req) res ;; mret (mkResponse 200 Multipart).

(** [GET /status]: no guard either; [ts] is left out. *)
Definition get_status (req : request) (st : relay) : response :=
  mkResponse 200
    (StatusJson None (streams st) (sizes (watchers st)) (Some (sizes (uploaders st)))).

(** [wss.on('connection', ws => ...)]: registration of the uploader. *)
Definition on_connection (ws : handle) (ws_sid : option string) : M unit :=
  let sid := or_default ws_sid "0" in
  λ st,
    let ups := match uploaders st !! sid with
               | Some _ => uploaders st
               | None => <[sid := []]> (uploaders st)
               end in
    (Normal tt, mkRelay (latest st) (watchers st) (alter (set_add ws) sid ups) (trace st)).

Definition on_message (w : world) (ws_sid : option string) (buf : Buffer) : M unit :=
  pushFrame w (or_default ws_sid "0") buf.

(** [ws.on('close', ...)] *)
Definition on_close (ws : handle) (ws_sid : option string) : M unit :=
  let sid := or_default ws_sid "0" in
  λ st,
    match uploaders st !! sid with
    | Some set =>
        let set' := set_delete ws set in
        let ups := <[sid := set']> (uploaders st) in
        (Normal tt,
         mkRelay (latest st) (watchers st)
                 (if length set' =? 0 then delete sid ups else ups) (trace st))
    | None => (Normal tt, st)
    end.

End Digest.

(** ** The server as a transition system *)

Module System.
Import JS Relay.

(** What can happen to the shared maps.  [GET /jpg] and [GET /status]
    only read them.  The last three events exist in the second server
    only. *)
Inductive event :=
| Mjpg (w : world) (param_sid : string) (res : handle)
    (* GET /mjpg/:sid got past its guards *)
| WatcherGone (param_sid : string) (res : handle)
    (* 'close' of the request or 'error' of the response of that handler *)
| Message (w : world) (sid : string) (buf : Buffer)
    (* a frame arrives on a channel whose session key is sid *)
| Connection (ws : handle) (ws_sid : option string)
| Close (ws : handle) (ws_sid : option string)
| AdminDisconnect (w : world) (param_sid : string).

Definition handler (ev : event) : M unit :=
  match ev with
  | Mjpg w p res => mjpg_handler w p res
  | WatcherGone p res => on_watcher_gone (or_default (Some p) "0") res
  | Message w sid buf => pushFrame w sid buf
  | Connection ws s => Digest.on_connection ws s
  | Close ws s => Digest.on_close ws s
  | AdminDisconnect w p => Digest.disconnect w p
  end.

Definition step (st : relay) (ev : event) : relay := run (handler ev) st.

Definition exec (evs : list event) (st : relay) : relay := foldl step st evs.

(** Events of [server.js], which tracks no uploaders and has no
    administrative disconnect. *)
Definition token_event (ev : event) : bool :=
  match ev with
  | Mjpg _ _ _ | WatcherGone _ _ | Message _ _ _ => true
  | _ => false
  end.

(** [ev] publishes a frame for session [s]. *)
Definition publishes (s : string) (ev : event) : bool :=
  match ev with
  | Message _ sid _ => String.eqb sid s
  | _ => false
  end.

(** The session keys listed under [streams] by a status response. *)
Definition listed (r : response) : list string :=
  match payload r with
  | StatusJson _ l _ _ => l
  | _ => []
  end.

Definition uploader_counts (r : response) : gmap string nat :=
  match payload r with
  | StatusJson _ _ _ (Some m) => m
  | _ => ∅
  end.

Definition enumerates (r : response) : bool :=
  match payload r with
  | StatusJson _ _ _ _ => true
  | _ => false
  end.

(** The three writes that deliver [buf] to [res]. *)
Definition part (res : handle) (buf : Buffer) : list effect :=
  [ResWrite res (Str (part_head buf)); ResWrite res (Bin buf); ResWrite res (Str CRLF)].

(** [t1] extends [t0] by calls among which [res] received [buf] whole. *)
Definition delivered (res : handle) (buf : Buffer) (t0 t1 : list effect) : Prop :=
  ∃ before after, t1 = t0 ++ before ++ part res buf ++ after.

(** What one pass of the loop of [pushFrame] does to one watcher. *)
Definition attempt (w : world) (buf : Buffer) (res : handle) : list effect :=
  match write_fault w res with
  | None => part res buf
  | Some AtHead => [ResEnd res]
  | Some AtBody => [ResWrite res (Str (part_head buf)); ResEnd res]
  | Some AtTail => [ResWrite res (Str (part_head buf)); ResWrite res (Bin buf); ResEnd res]
  end.

(** No write to [res] throws in this run. *)
Definition alive (w : world) (res : handle) : bool :=
  match write_fault w res with
  | None => true
  | Some _ => false
  end.

(** The body of the loop of [pushFrame]. *)
Definition visit (w : world) (sid : string) (buf : Buffer) (res : handle) : M unit :=
  try_catch (write_part w res buf)
            (try_catch (res_end w res) (ret tt) ;; watcher_set_delete sid res).

End System.

(** ** Stand-ins for the libraries, to run the handlers on concrete requests *)

Module Demo.
Import JS Relay.

(** Splits [a.b] at the first dot. *)
Fixpoint cut (s : string) : option (string * string) :=
  match s with
  | EmptyString => None
  | String c s' =>
      if Ascii.eqb c "."%char then Some (EmptyString, s')
      else match cut s' with
           | Some (a, b) => Some (String c a, b)
           | None => None
           end
  end.

(** A token is the text [secret.scope.sid]; it verifies under the secret
    it starts with. *)
Definition sign (sid scope secret : string) : string :=
  secret +:+ "." +:+ scope +:+ "." +:+ sid.

Definition verify (tok secret : string) : option Token.claims :=
  match cut tok with
  | Some (k, rest) =>
      if String.eqb k secret
      then match cut rest with
           | Some (scope, sid) => Some (Token.mkClaims (Some sid) (Some scope))
           | None => None
           end
      else None
  | None => None
  end.

(** The matching stand-in for [jwt.sign]; it never throws. *)
Definition signer (sid scope : string) (exp : option Z) (secret : string) : option string :=
  Some (sign sid scope secret).

(** A digest stand-in: the text itself, bracketed. *)
Definition digest (x : string) : string := "<" +:+ x +:+ ">".

Definition secure : Token.env := Token.mkEnv (Some "k1") (Some "api").
Definition secure' : Token.env := Token.mkEnv (Some "k2") (Some "api").
Definition open : Token.env := Token.mkEnv None None.

Definition shared : Digest.env := Digest.mkEnv (Some "s3cret") (Some "letmein").
Definition shared' : Digest.env := Digest.mkEnv (Some "other") (Some "letmein").

Definition F1 : Buffer := [Byte.xff; Byte.xd8; Byte.x01].
Definition F2 : Buffer := [Byte.xff; Byte.xd8; Byte.x02; Byte.x03].

(** A request bearing the admin code of [shared], and a state with one
    frame, one watcher and two uploaders for session 7. *)
Definition admin_req : Digest.request :=
  Digest.mkRequest (Some (QStr "letmein")) None "7".
Definition busy : relay :=
  mkRelay {[ "7" := F1 ]} {[ "7" := [1] ]} {[ "7" := [5; 6] ]} [].

(** A peer whose body write throws on response 2. *)
Definition flaky : world :=
  mkWorld (λ r, if r =? 2 then Some AtBody else None) (λ _, false) (λ _, false).

End Demo.

(** ** Three statements of the specification, as written *)

Module Stated.
Import JS Relay System.

(** The status enumeration is returned only to a request carrying the
    administrative credential (second server: the admin code). *)
Definition status_needs_admin_code
    (e : Digest.env) (random_hex : string) (req : Digest.request) (st : relay) : Prop :=
  enumerates (Digest.get_status req st) = true → Digest.isAdmin e random_hex req = true.

(** The administrative decision of [server.js] is the same in two runs
    that differ only in the token secret. *)
Definition admin_decision_ignores_token_secret
    (verify : string → string → option Token.claims) : Prop :=
  ∀ e1 e2 req st,
    Token.GSIMS_API_KEY e1 = Token.GSIMS_API_KEY e2 →
    enumerates (Token.get_status verify e1 req st)
    = enumerates (Token.get_status verify e2 req st).

(** An upgrade request on a wrong path, or without a session or a
    credential parameter, has its socket destroyed. *)
Definition upgrade_refuses_violation
    (verify : string → string → option Token.claims) (e : Token.env) (u : Token.url) : Prop :=
  Token.pathname u ≠ "/ws"
  ∨ Token.searchParams_get "sid" (Token.searchParams u) = None
  ∨ Token.searchParams_get "t" (Token.searchParams u) = None →
  Token.upgrade verify e (Some u) = Token.Destroyed.

(** A credential of session [A] presented at the snapshot endpoint of
    another session [B] is answered 403.  In the second server the
    credential is the digest of [A]; its viewer handlers read nothing of the
    request but the route parameter, so the token the request bears
    appears here only as [token]. *)
Definition viewer_refuses_other_session
    (sha256_hex : string → string) (e : Digest.env) (A B token : string)
    (req : Digest.request) (st : relay) : Prop :=
  token = Digest.tokenForSidHex sha256_hex e A →
  A ≠ B →
  Digest.params_sid req = B →
  status (Digest.get_jpg req st) = 403.

End Stated.

(** ** [server.js]: issuing tokens; the numeric fields of both servers *)

Module Issue.
Import JS Relay.

(** [x || d] followed by [String(...)], for a field of a parsed query or
    form-encoded body. *)
Definition qor (v : option qval) (d : string) : string :=
  if qtruthy v then from_option to_String EmptyString v else d.

Definition is_digit (a : ascii) : bool :=
  let n := Ascii.nat_of_ascii a in (48 <=? n) && (n <=? 57).

(** [/^\d+$/.test(s)] on a non-empty [s] is [all_digits s]. *)
Fixpoint all_digits (s : string) : bool :=
  match s with
  | EmptyString => true
  | String a s' => is_digit a && all_digits s'
  end.

(** Value of the longest prefix of decimal digits, continuing [acc]. *)
Fixpoint digits_value (acc : Z) (s : string) : Z :=
  match s with
  | String a s' =>
      if is_digit a
      then digits_value (10 * acc + (Z.of_nat (Ascii.nat_of_ascii a) - 48))%Z s'
      else acc
  | EmptyString => acc
  end.

Definition starts_with_digit (s : string) : bool :=
  match s with
  | String a _ => is_digit a
  | EmptyString => false
  end.

(** [parseInt(s, 10)]: leading white space, an optional sign, then the
    longest run of digits; [None] is [NaN].  The result is the integer
    the digits denote; JavaScript rounds it to a double, which the clamps
    below cannot tell apart. *)
Definition parseInt10 (s : string) : option Z :=
  let t := trim_start s in
  let '(neg, rest) :=
    match t with
    | String a r =>
        if Ascii.eqb a "-" then (true, r)
        else if Ascii.eqb a "+" then (false, r)
        else (false, t)
    | EmptyString => (false, t)
    end in
  if starts_with_digit rest
  then Some (if neg then Z.opp (digits_value 0 rest) else digits_value 0 rest)
  else None.

(** [Math.max(lo, Math.min(hi, x))]; [NaN] goes through both. *)
Definition clamp (lo hi : Z) (x : option Z) : option Z :=
  Z.max lo <$> (Z.min hi <$> x).

(** [Math.max(1, Math.min(30, parseInt(q.fps || d, 10)))] of the uploader
    page; [d] is ['12'] in [server.js] and ['8'] in the second server. *)
Definition uploader_fps (d : string) (q_fps : option qval) : option Z :=
  clamp 1 30 (parseInt10 (qor q_fps d)).

(** The parts of a [POST /issue] request that the handler reads. *)
Record request := mkRequest {
  x_api_key : option string;
  body_sid : option qval;
  body_scope : option qval;
  body_ttlSeconds : option qval
}.

(** [Crashed]: [jwt.sign] threw; nothing in the handler catches it. *)
Inductive answer :=
| Refused (status : nat) (error : string)
| Issued (token : string) (exp : option Z)
| Crashed.

Definition scopes : list string := ["view"; "upload"; "admin"].

Section Handler.
(** [jwt.sign({ sid, scope, exp }, secret, { algorithm: 'HS256' })]: the
    token, or [None] when it throws. *)
Variable jwt_sign : string → string → option Z → string → option string.
Variable e : Token.env.
(** [Math.floor(Date.now() / 1000)] *)
Variable now : Z.

Definition post_issue (req : request) : answer :=
  match Token.JWT_SECRET e, Token.API_KEY e with
  | Some secret, Some api_key =>
      let key := or_default (x_api_key req) EmptyString in
      if negb (String.eqb key api_key) then Refused 403 "bad_api_key"
      else
        let sid := qor (body_sid req) EmptyString in
        let scope := qor (body_scope req) EmptyString in
        if negb (truthy sid) || negb (all_digits sid) then Refused 400 "bad_sid"
        else if negb (bool_decide (scope ∈ scopes)) then Refused 400 "bad_scope"
        else
          let ttl := clamp 30 (86400 * 7)%Z
                       (parseInt10 (qor (body_ttlSeconds req) "3600")) in
          let exp := Z.add now <$> ttl in
          match jwt_sign sid scope exp secret with
          | Some token => Issued token exp
          | None => Crashed
          end
  | _, _ => Refused 501 "not_configured"
  end.
End Handler.

End Issue.

(** ** What an observer of the trace and of the store sees *)

Module Observed.
Import JS Relay System.

(** The response or socket an effect is performed on. *)
Definition target (eff : effect) : handle :=
  match eff with
  | ResWrite res _ => res
  | ResEnd res => res
  | WsClose ws _ _ => ws
  end.

(** The writes of one part that go out before the peer's fault. *)
Definition written (w : world) (buf : Buffer) (res : handle) : list effect :=
  match write_fault w res with
  | None => part res buf
  | Some AtHead => []
  | Some AtBody => [ResWrite res (Str (part_head buf))]
  | Some AtTail => [ResWrite res (Str (part_head buf)); ResWrite res (Bin buf)]
  end.

(** The frame a reader of the event log expects under [s]: the last one
    published for [s], unless an administrative disconnect of [s] came
    after it. *)
Definition note (s : string) (acc : option Buffer) (ev : event) : option Buffer :=
  match ev with
  | Message _ sid buf => if String.eqb sid s then Some buf else acc
  | AdminDisconnect _ p => if String.eqb p s then None else acc
  | _ => acc
  end.

Definition last_frame (s : string) (evs : list event) : option Buffer :=
  foldl (note s) None evs.

(** The uploader channels a reader of the event log expects under the
    session key [sid]: those connected and not closed since. *)
Definition tally (sid : string) (acc : list handle) (ev : event) : list handle :=
  match ev with
  | Connection ws s => if String.eqb (or_default s "0") sid then set_add ws acc else acc
  | Close ws s => if String.eqb (or_default s "0") sid then set_delete ws acc else acc
  | _ => acc
  end.

Definition open_channels (sid : string) (evs : list event) : list handle :=
  foldl (tally sid) [] evs.

End Observed.

(** * Properties *)

(** ** Sets and coercions *)

Section JSFacts.
Import JS.

Lemma set_delete_not_in x s : x ∉ set_delete x s.
Proof.
  unfold set_delete. intros H. apply list_elem_of_filter in H. tauto.
Qed.

Lemma set_delete_elem x y s : y ∈ set_delete x s ↔ y ≠ x ∧ y ∈ s.
Proof. unfold set_delete. by rewrite list_elem_of_filter. Qed.

Lemma set_add_elem x y s : y ∈ set_add x s ↔ y = x ∨ y ∈ s.
Proof.
  unfold set_add. destruct (decide (x ∈ s)) as [Hin|Hin].
  - split; [tauto | intros [->|H]; done].
  - rewrite elem_of_app, list_elem_of_singleton. tauto.
Qed.

Lemma set_add_nonempty x s : set_add x s ≠ [].
Proof.
  intros H. assert (Hx : x ∈ set_add x s) by (apply set_add_elem; auto).
  rewrite H in Hx. by apply not_elem_of_nil in Hx.
Qed.

Lemma truthy_true s : truthy s = true ↔ s ≠ EmptyString.
Proof. destruct s; simpl; split; congruence. Qed.

Lemma or_default_id s d : s ≠ EmptyString → or_default (Some s) d = s.
Proof. intros H. unfold or_default. destruct s; simpl; congruence. Qed.

Lemma or_default_param s : s ≠ EmptyString → or_default (Some s) "0" = s.
Proof. apply or_default_id. Qed.

Lemma set_delete_filter (P : handle → Prop) `{!∀ x, Decision (P x)} x s :
  filter P (set_delete x s) = filter (λ r, P r ∧ r ≠ x) s.
Proof. unfold set_delete. apply list_filter_filter. Qed.

Lemma filter_iff_in {A} (P Q : A → Prop)
    `{!∀ x, Decision (P x), !∀ x, Decision (Q x)} (l : list A) :
  (∀ x, x ∈ l → (P x ↔ Q x)) → filter P l = filter Q l.
Proof.
  induction l as [|a l IH]; intros Hall; [done|].
  rewrite !filter_cons.
  rewrite IH by (intros x Hx; apply Hall; by right).
  apply decide_ext, Hall. by left.
Qed.

Lemma filter_all {A} (P : A → Prop) `{!∀ x, Decision (P x)} (l : list A) :
  (∀ x, x ∈ l → P x) → filter P l = l.
Proof.
  induction l as [|a l IH]; intros Hall; [done|].
  rewrite filter_cons_True by (apply Hall; by left).
  f_equal. apply IH. intros x Hx. apply Hall. by right.
Qed.

Lemma flat_map_elem {A B} (f : A → list B) (x : A) (l : list A) :
  x ∈ l → ∃ l1 l2, flat_map f l = l1 ++ f x ++ l2.
Proof.
  intros (l1 & l2 & ->)%list_elem_of_split.
  exists (flat_map f l1), (flat_map f l2).
  by rewrite flat_map_app.
Qed.

Lemma alter_alter {A} (f g : A → A) (i : string) (m : gmap string A) :
  alter f i (alter g i m) = alter (f ∘ g) i m.
Proof.
  apply map_eq. intros j. destruct (decide (i = j)) as [->|Hne].
  - rewrite !lookup_alter_eq. by destruct (m !! j).
  - by rewrite !lookup_alter_ne.
Qed.
End JSFacts.

(** ** The broadcast loop *)

Section Broadcast.
Import JS Relay System.
Variables (w : world) (sid : string) (buf : Buffer).

Lemma bind_unfold {A B} (m : M A) (k : A → M B) st :
  (m ≫= k) st = match m st with
                | (Normal a, st') => k a st'
                | (Thrown, st') => (Thrown, st')
                end.
Proof. reflexivity. Qed.

Lemma visit_spec res st :
  visit w sid buf res st =
  (Normal tt,
   mkRelay (latest st)
           (if alive w res then watchers st
            else alter (set_delete res) sid (watchers st))
           (uploaders st)
           (trace st ++ attempt w buf res)).
Proof.
  destruct st as [la wa up tr].
  unfold visit, try_catch, write_part, res_write, res_end, alive, attempt, part.
  rewrite !bind_unfold.
  destruct (write_fault w res) as [[]|] eqn:Hf; simpl;
    rewrite ?bind_unfold; simpl;
    repeat (case_decide; try congruence; simpl);
    rewrite ?bind_unfold; simpl;
    try (destruct (end_throws w res); simpl);
    unfold watcher_set_delete; simpl; rewrite <- ?app_assoc; reflexivity.
Qed.

Lemma for_of_visit l st :
  for_of l (visit w sid buf) st =
  (Normal tt,
   mkRelay (latest st)
           (alter (filter (λ r, r ∉ l ∨ alive w r)) sid (watchers st))
           (uploaders st)
           (trace st ++ flat_map (attempt w buf) l)).
Proof.
  revert st. induction l as [|x l IH]; intros st.
  - destruct st as [la wa up tr]. simpl. unfold ret. do 2 f_equal.
    + symmetry. apply alter_id. intros s _. apply filter_all.
      intros r _. left. apply not_elem_of_nil.
    + by rewrite app_nil_r.
  - simpl for_of. rewrite bind_unfold, visit_spec, IH. simpl. do 2 f_equal.
    + destruct (alive w x) eqn:Hx.
      * apply alter_ext. intros s _. apply list_filter_iff. intros r.
        rewrite elem_of_cons. destruct (decide (r = x)) as [->|Hne].
        -- rewrite Hx. simpl. tauto.
        -- tauto.
      * rewrite alter_alter. apply alter_ext. intros s _. simpl.
        rewrite set_delete_filter. apply list_filter_iff. intros r.
        rewrite elem_of_cons. destruct (decide (r = x)) as [->|Hne].
        -- rewrite Hx. simpl. tauto.
        -- tauto.
    + by rewrite <- app_assoc.
Qed.

(** [pushFrame] in closed form: it returns normally, stores the frame,
    keeps exactly the watchers none of whose writes threw, and touches
    nothing else. *)
Lemma pushFrame_spec st :
  pushFrame w sid buf st =
  (Normal tt,
   mkRelay (<[sid := buf]> (latest st))
           (alter (filter (λ r, alive w r)) sid (watchers st))
           (uploaders st)
           (trace st ++ flat_map (attempt w buf) (default [] (watchers st !! sid)))).
Proof.
  destruct st as [la wa up tr]. unfold pushFrame.
  rewrite bind_unfold. simpl. rewrite bind_unfold. simpl.
  destruct (wa !! sid) as [set|] eqn:Hset; simpl.
  - change (for_of set _) with (for_of set (visit w sid buf)).
    rewrite for_of_visit. simpl. do 2 f_equal.
    apply alter_ext. intros s Hs. assert (s = set) as -> by congruence.
    apply filter_iff_in. intros r Hr. tauto.
  - unfold ret. rewrite alter_id' by done. by rewrite app_nil_r.
Qed.

Lemma pushFrame_latest st : latest (run (pushFrame w sid buf) st) = <[sid := buf]> (latest st).
Proof. unfold run. by rewrite pushFrame_spec. Qed.

Lemma pushFrame_uploaders st : uploaders (run (pushFrame w sid buf) st) = uploaders st.
Proof. unfold run. by rewrite pushFrame_spec. Qed.
End Broadcast.

(** C1: when a write to one watcher of a session throws during
    [pushFrame], the call still returns normally to its caller, that
    watcher is no longer in the session's set, and every watcher of the
    session whose writes go through stays registered and receives the
    three writes of the frame. *)
Theorem pushFrame_isolates_failed_watcher
    (w : Relay.world) (sid : string) (buf : JS.Buffer) (st : Relay.relay)
    (set : list JS.handle) (bad : JS.handle) :
  Relay.watchers st !! sid = Some set →
  bad ∈ set →
  Relay.write_fault w bad ≠ None →
  ∃ st' set',
    Relay.pushFrame w sid buf st = (Relay.Normal tt, st') ∧
    Relay.watchers st' !! sid = Some set' ∧
    (bad ∉ set') ∧
    (∀ res, res ∈ set → Relay.write_fault w res = None →
            res ∈ set' ∧ System.delivered res buf (Relay.trace st) (Relay.trace st')).
Proof.
  intros Hset Hbad Hfault. rewrite pushFrame_spec.
  eexists _, _. split; [reflexivity|]. simpl.
  rewrite lookup_alter_eq, Hset. simpl. split; [reflexivity|]. split.
  - rewrite list_elem_of_filter. intros [Halive _]. unfold System.alive in Halive.
    destruct (Relay.write_fault w bad); [done | congruence].
  - intros res Hres Hok. split.
    + apply list_elem_of_filter. split; [|done]. unfold System.alive. by rewrite Hok.
    + destruct (flat_map_elem (System.attempt w buf) res set Hres) as (l1 & l2 & Heq).
      exists l1, l2. rewrite Heq. unfold System.attempt. by rewrite Hok.
Qed.

Lemma pushFrame_isolates_failed_watcher_witness :
  ∃ st' set',
    Relay.pushFrame Demo.flaky "7" Demo.F1
      (Relay.mkRelay ∅ {[ "7" := [1; 2; 3] ]} ∅ []) = (Relay.Normal tt, st') ∧
    Relay.watchers st' !! "7" = Some set' ∧
    (2 ∉ set') ∧
    (∀ res, res ∈ [1; 2; 3] → Relay.write_fault Demo.flaky res = None →
            res ∈ set' ∧ System.delivered res Demo.F1 [] (Relay.trace st')).
Proof.
  apply (pushFrame_isolates_failed_watcher Demo.flaky "7" Demo.F1
           (Relay.mkRelay ∅ {[ "7" := [1; 2; 3] ]} ∅ []) [1; 2; 3] 2).
  - reflexivity.
  - apply list_elem_of_further, list_elem_of_here.
  - simpl. discriminate.
Defined.

(** ** What each handler leaves alone *)

Section Frames.
Import JS Relay System.

Lemma or_default_empty p : or_default (Some p) EmptyString = p.
Proof. by destruct p. Qed.

Lemma mjpg_handler_spec w p res st :
  ∃ tr,
    mjpg_handler w p res st =
    (Normal tt,
     mkRelay (latest st)
             (alter (set_add res) (or_default (Some p) "0")
                (match watchers st !! or_default (Some p) "0" with
                 | Some _ => watchers st
                 | None => <[or_default (Some p) "0" := []]> (watchers st)
                 end))
             (uploaders st) tr).
Proof.
  destruct st as [la wa up tr].
  unfold mjpg_handler. generalize (or_default (Some p) "0"). intros sid.
  unfold watchers_ensure, watcher_set_add, get_latest.
  rewrite !bind_unfold. simpl.
  destruct (wa !! sid) as [set|] eqn:Hw; simpl;
    (destruct (la !! sid) as [b|]; [|by eexists]);
    unfold try_catch, write_part, res_write; rewrite !bind_unfold;
    destruct (write_fault w res) as [[]|]; simpl;
    rewrite ?bind_unfold; simpl;
    repeat (case_decide; try congruence; simpl);
    rewrite ?bind_unfold; simpl; by eexists.
Qed.

Lemma close_loop_spec w l st :
  for_of l (λ ws, try_catch (ws_close w ws 4000 "Admin disconnect") (mret tt)) st =
  (Normal tt,
   mkRelay (latest st) (watchers st) (uploaders st)
           (trace st ++ ((λ ws, WsClose ws 4000 "Admin disconnect") <$> l))).
Proof.
  revert st. induction l as [|x l IH]; intros [la wa up tr].
  - simpl. unfold ret. by rewrite app_nil_r.
  - simpl for_of. rewrite bind_unfold.
    unfold try_catch at 1, ws_close at 1. rewrite bind_unfold. simpl.
    destruct (close_throws w x); simpl; rewrite IH; simpl;
      by rewrite <- app_assoc.
Qed.

Lemma disconnect_spec w p st :
  Digest.disconnect w p st =
  (Normal tt,
   mkRelay (delete p (latest st)) (watchers st) (uploaders st)
           (trace st ++ ((λ ws, WsClose ws 4000 "Admin disconnect")
                           <$> default [] (uploaders st !! p)))).
Proof.
  destruct st as [la wa up tr]. unfold Digest.disconnect.
  rewrite or_default_empty, bind_unfold. simpl. rewrite bind_unfold.
  destruct (up !! p) as [set|]; simpl.
  - rewrite close_loop_spec. reflexivity.
  - unfold mret, M_ret, ret, latest_delete. simpl. by rewrite app_nil_r.
Qed.

(** Only [Message] writes to [latest], only [AdminDisconnect] removes
    from it. *)
Lemma step_latest st ev :
  latest (step st ev) =
  match ev with
  | Message _ sid buf => <[sid := buf]> (latest st)
  | AdminDisconnect _ p => delete p (latest st)
  | _ => latest st
  end.
Proof.
  destruct ev as [w p res|p res|w sid buf|ws s|ws s|w p]; unfold step, handler.
  - destruct (mjpg_handler_spec w p res st) as [tr Heq]. unfold run. by rewrite Heq.
  - reflexivity.
  - apply pushFrame_latest.
  - reflexivity.
  - unfold run, Digest.on_close. by destruct (uploaders st !! _).
  - unfold run. by rewrite disconnect_spec.
Qed.

(** Only [Connection] and [Close] touch [uploaders]. *)
Lemma step_uploaders st ev :
  uploaders (step st ev) =
  match ev with
  | Connection ws s => uploaders (run (Digest.on_connection ws s) st)
  | Close ws s => uploaders (run (Digest.on_close ws s) st)
  | _ => uploaders st
  end.
Proof.
  destruct ev as [w p res|p res|w sid buf|ws s|ws s|w p]; unfold step, handler;
    try reflexivity.
  - destruct (mjpg_handler_spec w p res st) as [tr Heq]. unfold run. by rewrite Heq.
  - apply pushFrame_uploaders.
  - unfold run. by rewrite disconnect_spec.
Qed.

(** No handler removes a key from [watchers]: the Set a handler captured
    is the one the map keeps. *)
Lemma step_watchers_keys st ev sid :
  is_Some (watchers st !! sid) → is_Some (watchers (step st ev) !! sid).
Proof.
  intros Hsome.
  destruct ev as [w p res|p res|w s buf|ws s|ws s|w p]; unfold step, handler.
  - destruct (mjpg_handler_spec w p res st) as [tr Heq]. unfold run. rewrite Heq. simpl.
    rewrite lookup_alter. case_decide as Hk.
    + subst sid. destruct Hsome as [x Hx]. rewrite Hx. simpl. rewrite Hx. by eexists.
    + destruct (watchers st !! or_default (Some p) "0"); [done|].
      by rewrite lookup_insert_ne.
  - unfold run, on_watcher_gone, watcher_set_delete. simpl.
    rewrite lookup_alter. case_decide; [subst|done].
    destruct Hsome as [x ->]. by eexists.
  - unfold run. rewrite pushFrame_spec. simpl.
    rewrite lookup_alter. case_decide; [subst|done].
    destruct Hsome as [x ->]. by eexists.
  - done.
  - unfold run, Digest.on_close. by destruct (uploaders st !! _).
  - unfold run. by rewrite disconnect_spec.
Qed.
End Frames.

(** ** The store and the snapshot endpoint *)

Section Store.
Import JS Relay System.

Lemma jpg_handler_hit s buf st :
  s ≠ EmptyString → latest st !! s = Some buf →
  jpg_handler s st = mkResponse 200 (Image buf).
Proof. intros Hs Hget. unfold jpg_handler. by rewrite or_default_param, Hget. Qed.

Lemma jpg_handler_miss s st :
  s ≠ EmptyString → latest st !! s = None →
  jpg_handler s st = mkResponse 204 NoBody.
Proof. intros Hs Hget. unfold jpg_handler. by rewrite or_default_param, Hget. Qed.

Lemma streams_elem s st : s ∈ streams st ↔ is_Some (latest st !! s).
Proof.
  unfold streams. rewrite list_elem_of_fmap. split.
  - intros ([k v] & -> & Hin). apply elem_of_map_to_list in Hin. by eexists.
  - intros [v Hv]. exists (s, v). split; [done|]. by apply elem_of_map_to_list.
Qed.

Lemma exec_snoc evs ev st : exec (evs ++ [ev]) st = step (exec evs st) ev.
Proof. unfold exec. by rewrite foldl_app. Qed.

Lemma exec_unpublished s evs st :
  latest st !! s = None →
  (∀ ev, ev ∈ evs → publishes s ev = false) →
  latest (exec evs st) !! s = None.
Proof.
  revert st. induction evs as [|ev evs IH]; intros st Hnone Hall; [done|].
  simpl. apply IH.
  - rewrite step_latest.
    assert (Hev : publishes s ev = false) by (apply Hall; by left).
    destruct ev as [w p res|p res|w sid buf|ws x|ws x|w p]; try done.
    + simpl in Hev. apply String.eqb_neq in Hev. by rewrite lookup_insert_ne.
    + rewrite lookup_delete. by case_decide.
  - intros ev' Hin. apply Hall. by right.
Qed.
End Store.

(** ** The token guard *)

Section TokenGuard.
Import JS Relay Token.
Variable verify : string → string → option claims.
Variable e : env.

(** The guard rejects with one of three error responses, nothing else. *)
Lemma guard_rejection chk req r :
  verifyTokenOrOpen verify e chk req = Rejected r →
  r = mkResponse 401 (ErrorJson "missing_token") ∨
  r = mkResponse 401 (ErrorJson "invalid_token") ∨
  r = mkResponse 403 (ErrorJson "forbidden").
Proof.
  unfold verifyTokenOrOpen.
  destruct (JWT_SECRET e) as [secret|]; [|done].
  destruct (bearerOrQueryToken req) as [tok|]; [|intros [= <-]; auto].
  destruct (truthy tok); simpl; [|intros [= <-]; auto].
  destruct (verify tok secret) as [p|]; [|intros [= <-]; auto].
  destruct (chk p req); simpl; [done|intros [= <-]; auto].
Qed.

(** In enforcing mode the guard lets through exactly the requests whose
    token is non-empty, verifies under the secret, and passes the scope
    check. *)
Lemma guard_next chk req secret c :
  JWT_SECRET e = Some secret →
  verifyTokenOrOpen verify e chk req = Next c ↔
  ∃ tok p, bearerOrQueryToken req = Some tok ∧ tok ≠ EmptyString ∧
           verify tok secret = Some p ∧ chk p req = true ∧ c = Some p.
Proof.
  intros Hsec. unfold verifyTokenOrOpen. rewrite Hsec. split.
  - destruct (bearerOrQueryToken req) as [tok|]; [|done].
    destruct (truthy tok) eqn:Htok; simpl; [|done].
    destruct (verify tok secret) as [p|] eqn:Hv; [|done].
    destruct (chk p req) eqn:Hchk; simpl; [|done].
    intros [= <-]. exists tok, p. by rewrite <- truthy_true.
  - intros (tok & p & -> & Htok%truthy_true & Hv & Hchk & ->).
    by rewrite Htok, Hv, Hchk.
Qed.

Lemma guard_open chk req : JWT_SECRET e = None → verifyTokenOrOpen verify e chk req = Next None.
Proof. intros Hopen. unfold verifyTokenOrOpen. by rewrite Hopen. Qed.
End TokenGuard.

(** C5: after [pushFrame(s, F1)] and then [pushFrame(s, F2)] the store
    holds [F2] under [s], and [GET /jpg/s] answers 200 with [F2] as body,
    in the second server always and in [server.js] whenever the view guard
    lets the request through. *)
Theorem second_frame_replaces_first
    (verify : string → string → option Token.claims) (e : Token.env)
    (w1 w2 : Relay.world) (s : string) (F1 F2 : JS.Buffer) (st : Relay.relay) :
  s ≠ EmptyString →
  let st2 := Relay.run (Relay.pushFrame w2 s F2) (Relay.run (Relay.pushFrame w1 s F1) st) in
  Relay.latest st2 !! s = Some F2 ∧
  (∀ req, Digest.params_sid req = s →
          Digest.get_jpg req st2 = Relay.mkResponse 200 (Relay.Image F2)) ∧
  (∀ req, Token.params_sid req = s →
          (∃ c, Token.viewGuard verify e req = Token.Next c) →
          Token.get_jpg verify e req st2 = Relay.mkResponse 200 (Relay.Image F2)).
Proof.
  intros Hs st2.
  assert (Hget : Relay.latest st2 !! s = Some F2).
  { unfold st2. rewrite pushFrame_latest. apply lookup_insert_eq. }
  split; [done|]. split.
  - intros req <-. unfold Digest.get_jpg. by apply jpg_handler_hit.
  - intros req <- [c Hc]. unfold Token.get_jpg. rewrite Hc. by apply jpg_handler_hit.
Qed.

Lemma second_frame_replaces_first_witness :
  let st2 := Relay.run (Relay.pushFrame Relay.calm "7" Demo.F2)
               (Relay.run (Relay.pushFrame Relay.calm "7" Demo.F1) Relay.init) in
  Relay.latest st2 !! "7" = Some Demo.F2 ∧
  Digest.get_jpg (Digest.mkRequest None None "7") st2
    = Relay.mkResponse 200 (Relay.Image Demo.F2) ∧
  Token.get_jpg Demo.verify Demo.open (Token.mkRequest None None "7") st2
    = Relay.mkResponse 200 (Relay.Image Demo.F2).
Proof.
  destruct (second_frame_replaces_first Demo.verify Demo.open Relay.calm Relay.calm
              "7" Demo.F1 Demo.F2 Relay.init) as (H1 & H2 & H3); [discriminate|].
  split; [exact H1|]. split.
  - apply H2. reflexivity.
  - apply H3; [reflexivity|]. eexists. reflexivity.
Defined.

(** C9: for a session to which no frame was ever published, whatever else
    happened, [GET /jpg/s] answers 204 with no body and the [streams] list
    of the status endpoint does not contain [s]. *)
Theorem never_published_session_is_empty
    (verify : string → string → option Token.claims) (e : Token.env)
    (evs : list System.event) (s : string) :
  s ≠ EmptyString →
  (∀ ev, ev ∈ evs → System.publishes s ev = false) →
  let st := System.exec evs Relay.init in
  Relay.latest st !! s = None ∧
  (∀ req, Digest.params_sid req = s →
          Digest.get_jpg req st = Relay.mkResponse 204 Relay.NoBody) ∧
  (∀ req, Token.params_sid req = s →
          (∃ c, Token.viewGuard verify e req = Token.Next c) →
          Token.get_jpg verify e req st = Relay.mkResponse 204 Relay.NoBody) ∧
  (∀ req, s ∉ System.listed (Digest.get_status req st)) ∧
  (∀ req, s ∉ System.listed (Token.get_status verify e req st)).
Proof.
  intros Hs Hall st.
  assert (Hnone : Relay.latest st !! s = None)
    by (apply exec_unpublished; [apply lookup_empty | done]).
  assert (Hout : s ∉ Relay.streams st).
  { rewrite streams_elem, Hnone. by intros [? ?]. }
  split; [done|]. split; [|split; [|split]].
  - intros req <-. unfold Digest.get_jpg. by apply jpg_handler_miss.
  - intros req <- [c Hc]. unfold Token.get_jpg. rewrite Hc. by apply jpg_handler_miss.
  - intros req. done.
  - intros req. unfold Token.get_status, System.listed.
    destruct (Token.statusGuard verify e req) as [c|r] eqn:Hg; [done|].
    apply guard_rejection in Hg. destruct Hg as [-> | [-> | ->]]; apply not_elem_of_nil.
Qed.

Lemma never_published_session_is_empty_witness :
  let st := System.exec [System.Mjpg Relay.calm "7" 1; System.Message Relay.calm "8" Demo.F1]
              Relay.init in
  Relay.latest st !! "7" = None ∧
  (∀ req, Digest.params_sid req = "7" →
          Digest.get_jpg req st = Relay.mkResponse 204 Relay.NoBody) ∧
  (∀ req, Token.params_sid req = "7" →
          (∃ c, Token.viewGuard Demo.verify Demo.open req = Token.Next c) →
          Token.get_jpg Demo.verify Demo.open req st = Relay.mkResponse 204 Relay.NoBody) ∧
  (∀ req, "7" ∉ System.listed (Digest.get_status req st)) ∧
  (∀ req, "7" ∉ System.listed (Token.get_status Demo.verify Demo.open req st)).
Proof.
  apply (never_published_session_is_empty Demo.verify Demo.open
           [System.Mjpg Relay.calm "7" 1; System.Message Relay.calm "8" Demo.F1] "7").
  - discriminate.
  - intros ev Hin.
    repeat (apply elem_of_cons in Hin; destruct Hin as [-> | Hin]; [reflexivity|]).
    by apply elem_of_nil in Hin.
Defined.

(** ** The watcher registry *)

(** C6: the registry does keep an entry whose set is empty.  A viewer opens
    [GET /mjpg/7] and then disconnects: the ['close'] callback removes the
    response from the captured Set and leaves the key in [watchers], where
    the status endpoint reports it with a count of zero. *)
Theorem watcher_entry_outlives_last_watcher :
  let st := System.exec [System.Mjpg Relay.calm "7" 1; System.WatcherGone "7" 1] Relay.init in
  Relay.watchers st !! "7" = Some [] ∧
  Relay.sizes (Relay.watchers st) !! "7" = Some 0.
Proof. split; vm_compute; reflexivity. Qed.

(** ** The uploader registry of the second server *)

Section Uploaders.
Import JS Relay System.

Lemma on_connection_uploaders ws s st :
  uploaders (run (Digest.on_connection ws s) st) =
  alter (set_add ws) (or_default s "0")
    (match uploaders st !! or_default s "0" with
     | Some _ => uploaders st
     | None => <[or_default s "0" := []]> (uploaders st)
     end).
Proof. reflexivity. Qed.

Lemma on_close_uploaders ws s st :
  uploaders (run (Digest.on_close ws s) st) =
  match uploaders st !! or_default s "0" with
  | Some set =>
      if length (set_delete ws set) =? 0
      then delete (or_default s "0") (uploaders st)
      else <[or_default s "0" := set_delete ws set]> (uploaders st)
  | None => uploaders st
  end.
Proof.
  unfold run, Digest.on_close.
  destruct (uploaders st !! or_default s "0") as [set|]; [|done]. simpl.
  destruct (length (set_delete ws set) =? 0); [|done].
  apply delete_insert_eq.
Qed.

Lemma step_keeps_uploader_sets_nonempty st ev :
  map_Forall (λ _ set, set ≠ []) (uploaders st) →
  map_Forall (λ _ set, set ≠ []) (uploaders (step st ev)).
Proof.
  intros Hinv. rewrite step_uploaders.
  destruct ev as [w p res|p res|w sid buf|ws s|ws s|w p]; try done.
  - rewrite on_connection_uploaders. intros k v.
    destruct (decide (or_default s "0" = k)) as [<-|Hne].
    + rewrite lookup_alter_eq.
      destruct (_ !! or_default s "0") as [x|]; [|done].
      intros [= <-]. apply set_add_nonempty.
    + rewrite lookup_alter_ne by done.
      destruct (uploaders st !! or_default s "0").
      * apply Hinv.
      * rewrite lookup_insert_ne by done. apply Hinv.
  - rewrite on_close_uploaders.
    destruct (uploaders st !! or_default s "0") as [set|]; [|done].
    destruct (length (set_delete ws set) =? 0) eqn:Hlen.
    + by apply map_Forall_delete.
    + apply map_Forall_insert_2; [|done].
      intros Hnil. rewrite Hnil in Hlen. discriminate.
Qed.

Lemma exec_keeps_uploader_sets_nonempty evs st :
  map_Forall (λ _ set, set ≠ []) (uploaders st) →
  map_Forall (λ _ set, set ≠ []) (uploaders (exec evs st)).
Proof.
  revert st. induction evs as [|ev evs IH]; intros st Hinv; [done|].
  simpl. by apply IH, step_keeps_uploader_sets_nonempty.
Qed.
End Uploaders.

(** ** Administrative disconnect *)

(** C8: an authorised [POST /admin/disconnect/s] calls [close] on every
    uploader channel tracked for [s] and removes the stored frame of [s], so
    that [GET /jpg/s] then answers 204; the frames of all other sessions and
    the whole watcher registry are as before. *)
Theorem admin_disconnect_clears_one_session
    (e : Digest.env) (random_hex : string) (w : Relay.world)
    (req : Digest.request) (st : Relay.relay) :
  Digest.isAdmin e random_hex req = true →
  Digest.params_sid req ≠ EmptyString →
  ∃ st',
    Digest.post_admin_disconnect e random_hex w req st
      = (Relay.Normal (Relay.mkResponse 200 Relay.OkJson), st') ∧
    (∀ set ws, Relay.uploaders st !! Digest.params_sid req = Some set → ws ∈ set →
               Relay.WsClose ws 4000 "Admin disconnect" ∈ Relay.trace st') ∧
    Relay.latest st' !! Digest.params_sid req = None ∧
    (∀ req', Digest.params_sid req' = Digest.params_sid req →
             Digest.get_jpg req' st' = Relay.mkResponse 204 Relay.NoBody) ∧
    (∀ s', s' ≠ Digest.params_sid req → Relay.latest st' !! s' = Relay.latest st !! s') ∧
    Relay.watchers st' = Relay.watchers st.
Proof.
  intros Hadmin Hsid. unfold Digest.post_admin_disconnect. rewrite Hadmin. simpl.
  rewrite bind_unfold, disconnect_spec. eexists. split; [reflexivity|]. simpl.
  split; [|split; [|split; [|split]]].
  - intros set ws Hset Hws. rewrite Hset. simpl.
    apply elem_of_app. right. apply list_elem_of_fmap. by exists ws.
  - apply lookup_delete_eq.
  - intros req' Heq. unfold Digest.get_jpg. rewrite Heq.
    apply jpg_handler_miss; [done|]. simpl. apply lookup_delete_eq.
  - intros s' Hne. by apply lookup_delete_ne.
  - reflexivity.
Qed.

Lemma admin_disconnect_clears_one_session_witness :
  ∃ st',
    Digest.post_admin_disconnect Demo.shared "0f" Relay.calm Demo.admin_req Demo.busy
      = (Relay.Normal (Relay.mkResponse 200 Relay.OkJson), st') ∧
    (∀ set ws, Relay.uploaders Demo.busy !! Digest.params_sid Demo.admin_req = Some set →
               ws ∈ set → Relay.WsClose ws 4000 "Admin disconnect" ∈ Relay.trace st') ∧
    Relay.latest st' !! Digest.params_sid Demo.admin_req = None ∧
    (∀ req', Digest.params_sid req' = Digest.params_sid Demo.admin_req →
             Digest.get_jpg req' st' = Relay.mkResponse 204 Relay.NoBody) ∧
    (∀ s', s' ≠ Digest.params_sid Demo.admin_req →
           Relay.latest st' !! s' = Relay.latest Demo.busy !! s') ∧
    Relay.watchers st' = Relay.watchers Demo.busy.
Proof.
  apply (admin_disconnect_clears_one_session Demo.shared "0f" Relay.calm
           Demo.admin_req Demo.busy).
  - reflexivity.
  - discriminate.
Defined.

(** ** Sessions and scopes of tokens *)

Section TokenScopes.
Import JS Relay System Token.
Variable verify : string → string → option claims.
Variable e : env.

Lemma str_is_true o s : str_is o s = true ↔ o = Some s.
Proof.
  destruct o as [x|]; simpl; [|done].
  rewrite String.eqb_eq. split; congruence.
Qed.

Lemma str_is_other a b : a ≠ b → str_is (Some a) b = false.
Proof. intros Hne. simpl. by apply String.eqb_neq. Qed.

(** In enforcing mode [GET /status] enumerates exactly for a token that
    verifies under the secret and carries the scope admin. *)
Lemma token_status_iff secret req st :
  JWT_SECRET e = Some secret →
  enumerates (get_status verify e req st) = true ↔
  ∃ tok p, bearerOrQueryToken req = Some tok ∧ tok ≠ EmptyString ∧
           verify tok secret = Some p ∧ c_scope p = Some "admin".
Proof.
  intros Hsec. unfold get_status, statusGuard.
  destruct (verifyTokenOrOpen _ _ _ req) as [c|r] eqn:Hg.
  - split; [intros _|done].
    apply (guard_next verify e _ req secret c Hsec) in Hg.
    destruct Hg as (tok & p & Htok & Hne & Hv & Hchk & _).
    exists tok, p. split_and!; try done. by apply str_is_true.
  - split.
    + apply guard_rejection in Hg. by destruct Hg as [-> | [-> | ->]].
    + intros (tok & p & Htok & Hne & Hv & Hscope).
      assert (Hnext : verifyTokenOrOpen verify e (λ p _, str_is (c_scope p) "admin") req
                      = Next (Some p)).
      { apply (guard_next verify e _ req secret (Some p) Hsec).
        exists tok, p. split_and!; try done. by apply str_is_true. }
      congruence.
Qed.
End TokenScopes.

(** ** Who may read the status *)

(** C3, as stated, fails on the second server: with both secrets
    configured, a request that carries no code at all gets the
    enumeration. *)
Lemma digest_status_needs_no_credential :
  ¬ Stated.status_needs_admin_code Demo.shared "0f"
      (Digest.mkRequest None None EmptyString) Demo.busy.
Proof. unfold Stated.status_needs_admin_code. intros H. by specialize (H eq_refl). Qed.

(** C3, amended: in [server.js] with the token secret set, [GET /status]
    returns the enumeration exactly when the request carries a non-empty
    token that verifies under the secret with scope admin, and answers 401
    or 403 with an error body otherwise; [GET /status] of the second server
    checks nothing and always returns the enumeration. *)
Theorem status_guarded_by_admin_scope
    (verify : string → string → option Token.claims) (e : Token.env)
    (secret : string) (req : Token.request) (st : Relay.relay) :
  Token.JWT_SECRET e = Some secret →
  (System.enumerates (Token.get_status verify e req st) = true ↔
   ∃ tok p, Token.bearerOrQueryToken req = Some tok ∧ tok ≠ EmptyString ∧
            verify tok secret = Some p ∧ Token.c_scope p = Some "admin") ∧
  (System.enumerates (Token.get_status verify e req st) = false →
   ∃ code err, (code = 401 ∨ code = 403) ∧
               Token.get_status verify e req st = Relay.mkResponse code (Relay.ErrorJson err)) ∧
  (∀ dreq, System.enumerates (Digest.get_status dreq st) = true).
Proof.
  intros Hsec. split; [by apply token_status_iff|]. split; [|done].
  unfold Token.get_status.
  destruct (Token.statusGuard verify e req) as [c|r] eqn:Hg; [done|].
  intros _. apply guard_rejection in Hg.
  destruct Hg as [-> | [-> | ->]]; eexists _, _; (split; [|reflexivity]); auto.
Qed.

Lemma status_guarded_by_admin_scope_witness :
  System.enumerates
    (Token.get_status Demo.verify Demo.secure
       (Token.mkRequest (Some "Bearer k1.admin.7") None EmptyString) Demo.busy) = true ∧
  System.enumerates
    (Token.get_status Demo.verify Demo.secure
       (Token.mkRequest (Some "Bearer k1.view.7") None EmptyString) Demo.busy) = false.
Proof.
  split.
  - apply (status_guarded_by_admin_scope Demo.verify Demo.secure "k1"
             (Token.mkRequest (Some "Bearer k1.admin.7") None EmptyString) Demo.busy eq_refl).
    exists "k1.admin.7", (Token.mkClaims (Some "7") (Some "admin")).
    split_and!; [reflexivity | discriminate | reflexivity | reflexivity].
  - reflexivity.
Defined.

(** C4, as stated, fails on [server.js]: the same status request, bearing
    an admin-scoped token made from the first run's token secret, is
    accepted in that run and refused in a run that differs in the token
    secret only. *)
Lemma admin_decision_follows_token_secret :
  ¬ Stated.admin_decision_ignores_token_secret Demo.verify.
Proof.
  intros H.
  specialize (H Demo.secure Demo.secure'
                (Token.mkRequest (Some ("Bearer " +:+ Demo.sign "7" "admin" "k1")) None EmptyString)
                Relay.init eq_refl).
  vm_compute in H. discriminate.
Qed.

(** C4, amended: in the second server the decision of [GET /admin] and of
    [POST /admin/disconnect/:sid] is a comparison of the code in the request
    with the admin code and is the same in two runs that differ in the
    shared secret only; in [server.js] with the token secret set, admin
    access to [GET /status] is a token of scope admin verified under that
    same token secret. *)
Theorem admin_code_alone_decides
    (e1 e2 : Digest.env) (random_hex : string) (req : Digest.request)
    (w : Relay.world) (st : Relay.relay) :
  Digest.GSIMS_ADMIN_CODE e1 = Digest.GSIMS_ADMIN_CODE e2 →
  Digest.isAdmin e1 random_hex req = Digest.isAdmin e2 random_hex req ∧
  Digest.get_admin e1 random_hex req = Digest.get_admin e2 random_hex req ∧
  Digest.post_admin_disconnect e1 random_hex w req st
    = Digest.post_admin_disconnect e2 random_hex w req st ∧
  (Digest.isAdmin e1 random_hex req = true ↔
   (if JS.qtruthy (Digest.query_code req)
    then from_option JS.to_String EmptyString (Digest.query_code req)
    else EmptyString) = Digest.ADMIN_CODE e1 random_hex
   ∨ JS.or_default (Digest.x_gsims_code req) EmptyString = Digest.ADMIN_CODE e1 random_hex) ∧
  (∀ verify te secret treq,
     Token.JWT_SECRET te = Some secret →
     System.enumerates (Token.get_status verify te treq st) = true ↔
     ∃ tok p, Token.bearerOrQueryToken treq = Some tok ∧ tok ≠ EmptyString ∧
              verify tok secret = Some p ∧ Token.c_scope p = Some "admin").
Proof.
  intros Hcode.
  assert (Hadm : Digest.isAdmin e1 random_hex req = Digest.isAdmin e2 random_hex req)
    by (unfold Digest.isAdmin, Digest.ADMIN_CODE; by rewrite Hcode).
  split; [done|]. split; [|split; [|split]].
  - unfold Digest.get_admin. by rewrite Hadm.
  - unfold Digest.post_admin_disconnect. by rewrite Hadm.
  - unfold Digest.isAdmin. rewrite orb_true_iff, !String.eqb_eq. reflexivity.
  - intros verify te secret treq Hsec. by apply token_status_iff.
Qed.

Lemma admin_code_alone_decides_witness :
  Digest.isAdmin Demo.shared "0f" Demo.admin_req = Digest.isAdmin Demo.shared' "0f" Demo.admin_req ∧
  Digest.isAdmin Demo.shared "0f" Demo.admin_req = true.
Proof.
  destruct (admin_code_alone_decides Demo.shared Demo.shared' "0f" Demo.admin_req
              Relay.calm Demo.busy eq_refl) as (H1 & _ & _ & H2 & _).
  split; [exact H1|]. apply H2. left. reflexivity.
Defined.

(** ** Upgrade requests *)

(** C7, as stated, fails on [server.js]: an upgrade on [/ws] without a
    [sid] parameter is completed for session 0, in enforcing mode when the
    token is an upload token for session 0, and in open mode without any
    parameter at all. *)
Lemma upgrade_without_session_is_accepted :
  ¬ Stated.upgrade_refuses_violation Demo.verify Demo.secure
      (Token.mkUrl "/ws" [("t", Demo.sign "0" "upload" "k1")]).
Proof.
  unfold Stated.upgrade_refuses_violation. intros H.
  assert (Hacc : Token.upgrade Demo.verify Demo.secure
                   (Some (Token.mkUrl "/ws" [("t", Demo.sign "0" "upload" "k1")]))
                 = Token.Accepted "0") by reflexivity.
  rewrite H in Hacc; [discriminate|]. right. left. reflexivity.
Qed.

Lemma upgrade_in_open_mode_needs_nothing :
  Token.upgrade Demo.verify Demo.open (Some (Token.mkUrl "/ws" [])) = Token.Accepted "0".
Proof. reflexivity. Qed.

(** C7, amended: both servers destroy the socket, without completing the
    upgrade, when the path is not [/ws]; the second server also when [sid]
    or [token] is missing or empty; [server.js] also when the request
    target does not parse and, in enforcing mode, when [t] is missing or
    empty.  In [server.js] a missing [sid] is not refused: the session is
    then 0. *)
Theorem upgrade_violations_destroy_socket
    (verify : string → string → option Token.claims) (te : Token.env)
    (sha256_hex : string → string) (de : Digest.env)
    (tu : Token.url) (du : Digest.url) :
  (Token.pathname tu ≠ "/ws" → Token.upgrade verify te (Some tu) = Token.Destroyed) ∧
  Token.upgrade verify te None = Token.Destroyed ∧
  (∀ secret, Token.JWT_SECRET te = Some secret →
     JS.or_default (Token.searchParams_get "t" (Token.searchParams tu)) EmptyString = EmptyString →
     Token.upgrade verify te (Some tu) = Token.Destroyed) ∧
  (∀ sid, Token.upgrade verify te (Some tu) = Token.Accepted sid →
     sid = JS.or_default (Token.searchParams_get "sid" (Token.searchParams tu)) "0") ∧
  (Digest.pathname du ≠ "/ws"
   ∨ JS.or_default (Digest.searchParams_get "sid" (Digest.searchParams du)) EmptyString = EmptyString
   ∨ JS.or_default (Digest.searchParams_get "token" (Digest.searchParams du)) EmptyString = EmptyString →
   Digest.upgrade sha256_hex de (Some du) = Digest.Destroyed).
Proof.
  split_and!.
  - intros Hpath%String.eqb_neq. unfold Token.upgrade. by rewrite Hpath.
  - reflexivity.
  - intros secret Hsec Ht. unfold Token.upgrade.
    destruct (negb (String.eqb (Token.pathname tu) "/ws")); [done|].
    by rewrite Hsec, Ht.
  - unfold Token.upgrade.
    destruct (negb (String.eqb (Token.pathname tu) "/ws")); [done|].
    destruct (Token.JWT_SECRET te) as [secret|]; [|by intros sid [= <-]].
    destruct (negb (JS.truthy _)); [done|].
    destruct (verify _ secret) as [p|]; [|done].
    destruct (negb _); [done|]. by intros sid [= <-].
  - unfold Digest.upgrade. intros [Hpath%String.eqb_neq | [Hsid | Htok]].
    + by rewrite Hpath.
    + destruct (negb (String.eqb (Digest.pathname du) "/ws")); [done|].
      by rewrite Hsid.
    + destruct (negb (String.eqb (Digest.pathname du) "/ws")); [done|].
      rewrite Htok. simpl. by rewrite orb_true_r.
Qed.

Lemma upgrade_violations_destroy_socket_witness :
  Token.upgrade Demo.verify Demo.secure (Some (Token.mkUrl "/cam" [("sid", "7")]))
    = Token.Destroyed ∧
  Token.upgrade Demo.verify Demo.secure (Some (Token.mkUrl "/ws" [("sid", "7")]))
    = Token.Destroyed ∧
  Digest.upgrade Demo.digest Demo.shared (Some (Digest.mkUrl "/ws" [("token", "abc")]))
    = Digest.Destroyed.
Proof.
  split; [|split].
  - destruct (upgrade_violations_destroy_socket Demo.verify Demo.secure Demo.digest Demo.shared
                (Token.mkUrl "/cam" [("sid", "7")]) (Digest.mkUrl "/ws" []))
      as (H & _). apply H. discriminate.
  - destruct (upgrade_violations_destroy_socket Demo.verify Demo.secure Demo.digest Demo.shared
                (Token.mkUrl "/ws" [("sid", "7")]) (Digest.mkUrl "/ws" []))
      as (_ & _ & H & _). apply (H "k1"); reflexivity.
  - destruct (upgrade_violations_destroy_socket Demo.verify Demo.secure Demo.digest Demo.shared
                (Token.mkUrl "/ws" []) (Digest.mkUrl "/ws" [("token", "abc")]))
      as (_ & _ & _ & _ & H). apply H. right. left. reflexivity.
Defined.

(** * Further properties of the code *)

(** ** Fan-out *)

Section FanOut.
Import JS Relay System Observed.

Lemma flat_map_ext_in {A B} (f g : A → list B) (l : list A) :
  (∀ x, x ∈ l → f x = g x) → flat_map f l = flat_map g l.
Proof.
  induction l as [|a l IH]; intros Hall; [done|]. simpl.
  rewrite Hall by by left. f_equal. apply IH. intros x Hx. apply Hall. by right.
Qed.

Lemma filter_none {A} (P : A → Prop) `{!∀ x, Decision (P x)} (l : list A) :
  Forall (λ x, ¬ P x) l → filter P l = [].
Proof.
  induction 1 as [|a l Ha _ IH]; [done|]. by rewrite filter_cons_False.
Qed.

Lemma attempt_target w buf res :
  Forall (λ eff, target eff = res) (attempt w buf res).
Proof.
  unfold attempt, part. destruct (write_fault w res) as [[]|]; repeat constructor.
Qed.

Lemma flat_map_attempt_targets w buf l :
  Forall (λ eff, target eff ∈ l) (flat_map (attempt w buf) l).
Proof.
  induction l as [|x l IH]; [constructor|]. simpl. apply Forall_app. split.
  - eapply Forall_impl; [apply attempt_target|]. intros eff ->. by left.
  - eapply Forall_impl; [apply IH|]. intros eff Hin. by right.
Qed.

Lemma filter_target_other w buf res l :
  res ∉ l → filter (λ eff, target eff = res) (flat_map (attempt w buf) l) = [].
Proof.
  intros Hout. induction l as [|x l IH]; [done|]. simpl.
  rewrite filter_app, IH by (intros Hin; apply Hout; by right).
  rewrite app_nil_r. apply filter_none.
  eapply Forall_impl; [apply attempt_target|].
  intros eff -> ->. apply Hout. by left.
Qed.

Lemma filter_target_once w buf res l :
  NoDup l → res ∈ l →
  filter (λ eff, target eff = res) (flat_map (attempt w buf) l) = attempt w buf res.
Proof.
  induction l as [|x l IH]; intros Hnd Hin; [by apply elem_of_nil in Hin|].
  apply NoDup_cons in Hnd as [Hx Hnd]. simpl. rewrite filter_app.
  apply elem_of_cons in Hin as [->|Hin].
  - rewrite filter_target_other by done. rewrite app_nil_r.
    apply filter_all. intros eff Heff.
    pose proof (attempt_target w buf x) as Hall.
    rewrite Forall_forall in Hall. by apply Hall.
  - rewrite IH by done.
    assert (Hne : x ≠ res) by (intros ->; done).
    replace (filter _ (attempt w buf x)) with (@nil effect); [done|].
    symmetry. apply filter_none.
    eapply Forall_impl; [apply attempt_target|]. intros eff -> ->. done.
Qed.
End FanOut.

(** X1: when no write throws, [pushFrame] leaves the watcher registry as
    it is and sends one whole part to each watcher of the session, in the
    order in which the watchers registered. *)
Theorem pushFrame_healthy_fanout
    (w : Relay.world) (sid : string) (buf : JS.Buffer) (st : Relay.relay)
    (set : list JS.handle) :
  Relay.watchers st !! sid = Some set →
  (∀ res, res ∈ set → Relay.write_fault w res = None) →
  Relay.pushFrame w sid buf st =
  (Relay.Normal tt,
   Relay.mkRelay (<[sid := buf]> (Relay.latest st)) (Relay.watchers st) (Relay.uploaders st)
     (Relay.trace st ++ flat_map (λ res, System.part res buf) set)).
Proof.
  intros Hset Hok. rewrite pushFrame_spec, Hset. simpl. do 2 f_equal.
  - apply alter_id. intros s Hs. assert (s = set) as -> by congruence.
    apply filter_all. intros res Hres. unfold System.alive. by rewrite Hok.
  - f_equal. apply flat_map_ext_in. intros res Hres.
    unfold System.attempt. by rewrite Hok.
Qed.

Lemma pushFrame_healthy_fanout_witness :
  Relay.pushFrame Relay.calm "7" Demo.F1 Demo.busy =
  (Relay.Normal tt,
   Relay.mkRelay (<[ "7" := Demo.F1 ]> (Relay.latest Demo.busy)) (Relay.watchers Demo.busy)
     (Relay.uploaders Demo.busy)
     (Relay.trace Demo.busy ++ flat_map (λ res, System.part res Demo.F1) [1])).
Proof.
  apply (pushFrame_healthy_fanout Relay.calm "7" Demo.F1 Demo.busy [1]).
  - reflexivity.
  - intros res _. reflexivity.
Defined.

(** X2: [pushFrame] for one session acts on that session only: everything
    it does to responses is done to watchers of that session, the frames
    and watcher sets of all other sessions stay as they were, and a session
    without a watcher entry causes no call at all. *)
Theorem pushFrame_stays_in_session
    (w : Relay.world) (sid : string) (buf : JS.Buffer) (st : Relay.relay) :
  ∃ new,
    Relay.trace (Relay.run (Relay.pushFrame w sid buf) st) = Relay.trace st ++ new ∧
    Forall (λ eff, Observed.target eff ∈ default [] (Relay.watchers st !! sid)) new ∧
    (Relay.watchers st !! sid = None → new = []) ∧
    (∀ sid', sid' ≠ sid →
       Relay.watchers (Relay.run (Relay.pushFrame w sid buf) st) !! sid'
         = Relay.watchers st !! sid' ∧
       Relay.latest (Relay.run (Relay.pushFrame w sid buf) st) !! sid'
         = Relay.latest st !! sid').
Proof.
  unfold Relay.run. rewrite pushFrame_spec. simpl.
  eexists. split; [reflexivity|]. split_and!.
  - apply flat_map_attempt_targets.
  - by intros ->.
  - intros sid' Hne. by rewrite lookup_alter_ne, lookup_insert_ne.
Qed.

(** X3: once the close or error callback of a watcher has run, a later
    [pushFrame] for its session does nothing to that response. *)
Theorem gone_watcher_gets_nothing
    (w : Relay.world) (sid : string) (buf : JS.Buffer) (res : JS.handle)
    (st : Relay.relay) :
  let st1 := Relay.run (Relay.on_watcher_gone sid res) st in
  ∃ new,
    Relay.trace (Relay.run (Relay.pushFrame w sid buf) st1) = Relay.trace st ++ new ∧
    Forall (λ eff, Observed.target eff ≠ res) new.
Proof.
  intros st1. unfold Relay.run. rewrite pushFrame_spec. simpl.
  eexists. split; [reflexivity|].
  rewrite lookup_alter_eq.
  eapply Forall_impl; [apply flat_map_attempt_targets|].
  intros eff Hin Heq. cbn beta in Hin. rewrite Heq in Hin.
  destruct (Relay.watchers st !! sid) as [set|]; simpl in Hin.
  - by apply set_delete_not_in in Hin.
  - by apply elem_of_nil in Hin.
Qed.

(** ** Sets stay sets *)

Section NoDuplicates.
Import JS Relay System Observed.

Lemma set_add_nodup x s : NoDup s → NoDup (set_add x s).
Proof.
  intros Hnd. unfold set_add. destruct (decide (x ∈ s)) as [Hin|Hout]; [done|].
  apply NoDup_app. split_and!; [done| |apply NoDup_singleton].
  intros y Hy Hy'. apply list_elem_of_singleton in Hy'. by subst.
Qed.

Lemma set_delete_nodup x s : NoDup s → NoDup (set_delete x s).
Proof. apply NoDup_filter. Qed.

Lemma map_Forall_alter {A} (P : A → Prop) (f : A → A) (i : string) (m : gmap string A) :
  (∀ x, P x → P (f x)) →
  map_Forall (λ _, P) m → map_Forall (λ _, P) (alter f i m).
Proof.
  intros Hf Hm k v. destruct (decide (i = k)) as [<-|Hne].
  - rewrite lookup_alter_eq. destruct (m !! i) as [x|] eqn:Hx; [|done].
    intros [= <-]. apply Hf. by apply (Hm i).
  - rewrite lookup_alter_ne by done. apply Hm.
Qed.

Lemma step_watchers st ev :
  watchers (step st ev) =
  match ev with
  | Mjpg _ p res =>
      alter (set_add res) (or_default (Some p) "0")
        (match watchers st !! or_default (Some p) "0" with
         | Some _ => watchers st
         | None => <[or_default (Some p) "0" := []]> (watchers st)
         end)
  | WatcherGone p res => alter (set_delete res) (or_default (Some p) "0") (watchers st)
  | Message w sid _ => alter (filter (λ r, alive w r)) sid (watchers st)
  | _ => watchers st
  end.
Proof.
  destruct ev as [w p res|p res|w sid buf|ws s|ws s|w p]; unfold step, handler.
  - destruct (mjpg_handler_spec w p res st) as [tr Heq]. unfold run. by rewrite Heq.
  - reflexivity.
  - unfold run. by rewrite pushFrame_spec.
  - reflexivity.
  - unfold run, Digest.on_close. by destruct (uploaders st !! _).
  - unfold run. by rewrite disconnect_spec.
Qed.

Lemma step_watchers_nodup st ev :
  map_Forall (λ _, NoDup) (watchers st) → map_Forall (λ _, NoDup) (watchers (step st ev)).
Proof.
  intros Hinv. rewrite step_watchers.
  destruct ev as [w p res|p res|w sid buf|ws s|ws s|w p]; try done.
  - apply map_Forall_alter; [apply set_add_nodup|].
    destruct (watchers st !! or_default (Some p) "0"); [done|].
    apply map_Forall_insert_2; [apply NoDup_nil_2 | done].
  - apply map_Forall_alter; [apply set_delete_nodup | done].
  - apply map_Forall_alter; [|done]. intros x. apply NoDup_filter.
Qed.

Lemma exec_watchers_nodup evs st :
  map_Forall (λ _, NoDup) (watchers st) → map_Forall (λ _, NoDup) (watchers (exec evs st)).
Proof.
  revert st. induction evs as [|ev evs IH]; intros st Hinv; [done|].
  simpl. by apply IH, step_watchers_nodup.
Qed.
End NoDuplicates.

(** X4: in every state the server can reach, a watcher of a session whose
    writes go through receives from one [pushFrame] exactly the three
    writes of the frame, once, and nothing else. *)
Theorem registered_watcher_gets_one_part
    (evs : list System.event) (w : Relay.world) (sid : string) (buf : JS.Buffer)
    (res : JS.handle) (set : list JS.handle) :
  let st := System.exec evs Relay.init in
  Relay.watchers st !! sid = Some set →
  res ∈ set →
  Relay.write_fault w res = None →
  ∃ new,
    Relay.trace (Relay.run (Relay.pushFrame w sid buf) st) = Relay.trace st ++ new ∧
    filter (λ eff, Observed.target eff = res) new = System.part res buf.
Proof.
  intros st Hset Hres Hok. unfold Relay.run. rewrite pushFrame_spec. simpl.
  eexists. split; [reflexivity|]. rewrite Hset. simpl.
  assert (Hnd : NoDup set).
  { apply (exec_watchers_nodup evs Relay.init (map_Forall_empty _) sid set Hset). }
  rewrite filter_target_once by done. unfold System.attempt. by rewrite Hok.
Qed.

Lemma registered_watcher_gets_one_part_witness :
  let st := System.exec [System.Mjpg Relay.calm "7" 1; System.Mjpg Relay.calm "7" 2]
              Relay.init in
  ∃ new,
    Relay.trace (Relay.run (Relay.pushFrame Demo.flaky "7" Demo.F1) st)
      = Relay.trace st ++ new ∧
    filter (λ eff, Observed.target eff = 1) new = System.part 1 Demo.F1.
Proof.
  apply (registered_watcher_gets_one_part
           [System.Mjpg Relay.calm "7" 1; System.Mjpg Relay.calm "7" 2]
           Demo.flaky "7" Demo.F1 1 [1; 2]).
  - vm_compute. reflexivity.
  - apply list_elem_of_here.
  - reflexivity.
Defined.

(** ** Exceptions *)

(** X5: no handler lets an exception escape, whatever the peers do: the
    handlers of the events, [GET /mjpg/:sid] of [server.js] and
    [POST /admin/disconnect/:sid] all return normally. *)
Theorem handlers_never_throw (ev : System.event) (st : Relay.relay) :
  (System.handler ev st).1 = Relay.Normal tt ∧
  (∀ verify e w req res, ∃ r,
     (Token.get_mjpg verify e w req res st).1 = Relay.Normal r) ∧
  (∀ e random_hex w req, ∃ r,
     (Digest.post_admin_disconnect e random_hex w req st).1 = Relay.Normal r).
Proof.
  split_and!.
  - destruct ev as [w p res|p res|w sid buf|ws s|ws s|w p]; unfold System.handler.
    + destruct (mjpg_handler_spec w p res st) as [tr Heq]. by rewrite Heq.
    + reflexivity.
    + by rewrite pushFrame_spec.
    + reflexivity.
    + unfold Digest.on_close. by destruct (Relay.uploaders st !! _).
    + by rewrite disconnect_spec.
  - intros verify e w req res. unfold Token.get_mjpg.
    destruct (Token.viewGuard verify e req) as [c|r]; [|by eexists].
    rewrite bind_unfold.
    destruct (mjpg_handler_spec w (Token.params_sid req) res st) as [tr Heq].
    rewrite Heq. by eexists.
  - intros e random_hex w req. unfold Digest.post_admin_disconnect.
    destruct (negb _); [by eexists|].
    rewrite bind_unfold, disconnect_spec. by eexists.
Qed.

(** ** Joining a stream *)

(** The trace [GET /mjpg/:sid] leaves: the priming writes, if any. *)
Lemma mjpg_handler_trace
    (w : Relay.world) (p : string) (res : JS.handle) (st : Relay.relay) :
  Relay.trace (Relay.run (Relay.mjpg_handler w p res) st) =
    Relay.trace st ++
    match Relay.latest st !! JS.or_default (Some p) "0" with
    | Some buf => Observed.written w buf res
    | None => []
    end.
Proof.
  destruct st as [la wa up tr].
  unfold Relay.run, Relay.mjpg_handler. generalize (JS.or_default (Some p) "0"). intros sid.
  unfold Relay.watchers_ensure, Relay.watcher_set_add, Relay.get_latest.
  rewrite !bind_unfold. simpl.
  destruct (wa !! sid) as [old|]; simpl;
    (destruct (la !! sid) as [b|]; simpl; [|by rewrite app_nil_r]);
    unfold Relay.try_catch, Relay.write_part, Relay.res_write, Observed.written,
      System.part;
    rewrite !bind_unfold;
    destruct (Relay.write_fault w res) as [[]|]; simpl;
    rewrite ?bind_unfold; simpl;
    repeat (case_decide; try congruence; simpl);
    rewrite ?bind_unfold; simpl;
    rewrite <- ?app_assoc; try reflexivity; by rewrite app_nil_r.
Qed.

(** X6: [GET /mjpg/:sid] always leaves the response registered as a
    watcher of the session; it writes the stored frame of the session to
    it, as far as the writes go, nothing when no frame is stored, and
    stores no frame itself.  A throw of a priming write does not unregister
    the watcher. *)
Theorem mjpg_registers_and_primes
    (w : Relay.world) (p : string) (res : JS.handle) (st : Relay.relay) :
  ∃ st' set,
    Relay.mjpg_handler w p res st = (Relay.Normal tt, st') ∧
    Relay.watchers st' !! JS.or_default (Some p) "0" = Some set ∧
    res ∈ set ∧
    Relay.latest st' = Relay.latest st ∧
    Relay.trace st' =
      Relay.trace st ++
      match Relay.latest st !! JS.or_default (Some p) "0" with
      | Some buf => Observed.written w buf res
      | None => []
      end.
Proof.
  pose proof (mjpg_handler_trace w p res st) as Htr.
  destruct (mjpg_handler_spec w p res st) as [tr Heq].
  unfold Relay.run in Htr. rewrite Heq in Htr. simpl in Htr.
  exists (Relay.mkRelay (Relay.latest st)
            (alter (JS.set_add res) (JS.or_default (Some p) "0")
               (match Relay.watchers st !! JS.or_default (Some p) "0" with
                | Some _ => Relay.watchers st
                | None => <[JS.or_default (Some p) "0" := []]> (Relay.watchers st)
                end))
            (Relay.uploaders st) tr),
         (JS.set_add res (default [] (Relay.watchers st !! JS.or_default (Some p) "0"))).
  split_and!; try done.
  - simpl. rewrite lookup_alter_eq.
    destruct (Relay.watchers st !! JS.or_default (Some p) "0") as [old|] eqn:Hold.
    + by rewrite Hold.
    + by rewrite lookup_insert_eq.
  - apply set_add_elem. by left.
Qed.

(** ** The store over time *)

Section LastFrame.
Import JS Relay System Observed.

Lemma exec_latest s evs st acc :
  latest st !! s = acc → latest (exec evs st) !! s = foldl (note s) acc evs.
Proof.
  revert st acc. induction evs as [|ev evs IH]; intros st acc Hacc; [done|].
  simpl. apply IH. rewrite step_latest.
  destruct ev as [w p res|p res|w sid buf|ws x|ws x|w p]; simpl; try done.
  - destruct (String.eqb sid s) eqn:Heq.
    + apply String.eqb_eq in Heq as ->. apply lookup_insert_eq.
    + apply String.eqb_neq in Heq. by rewrite lookup_insert_ne.
  - destruct (String.eqb p s) eqn:Heq.
    + apply String.eqb_eq in Heq as ->. apply lookup_delete_eq.
    + apply String.eqb_neq in Heq. by rewrite lookup_delete_ne.
Qed.
End LastFrame.

(** X7: after any sequence of events the store holds under [s] the last
    frame published for [s], unless an administrative disconnect of [s]
    came later, and no other event changes it; [GET /jpg/s] answers 200
    with that frame, or 204 when there is none. *)
Theorem store_holds_last_frame (evs : list System.event) (s : string) :
  s ≠ EmptyString →
  Relay.latest (System.exec evs Relay.init) !! s = Observed.last_frame s evs ∧
  Relay.jpg_handler s (System.exec evs Relay.init) =
    match Observed.last_frame s evs with
    | Some buf => Relay.mkResponse 200 (Relay.Image buf)
    | None => Relay.mkResponse 204 Relay.NoBody
    end.
Proof.
  intros Hs.
  assert (Hl : Relay.latest (System.exec evs Relay.init) !! s = Observed.last_frame s evs)
    by (apply exec_latest, lookup_empty).
  split; [done|].
  destruct (Observed.last_frame s evs) as [buf|].
  - by apply jpg_handler_hit.
  - by apply jpg_handler_miss.
Qed.

Lemma store_holds_last_frame_witness :
  Relay.jpg_handler "7"
    (System.exec [System.Message Relay.calm "7" Demo.F1;
                  System.Message Relay.calm "8" Demo.F2;
                  System.Close 5 (Some "7")] Relay.init)
  = Relay.mkResponse 200 (Relay.Image Demo.F1).
Proof.
  destruct (store_holds_last_frame
              [System.Message Relay.calm "7" Demo.F1;
               System.Message Relay.calm "8" Demo.F2;
               System.Close 5 (Some "7")] "7") as [_ H]; [discriminate|].
  exact H.
Defined.

(** ** Decisions of the token guard *)

Section TokenDecisions.
Import JS Relay System Token.
Variable verify : string → string → option claims.
Variable e : env.

Lemma str_is_false o s : str_is o s = false ↔ o ≠ Some s.
Proof.
  rewrite <- not_true_iff_false, str_is_true. reflexivity.
Qed.

Lemma view_check_true p req :
  str_is (c_sid p) (or_default (Some (params_sid req)) EmptyString)
  && str_is (c_scope p) "view" = true
  ↔ c_sid p = Some (params_sid req) ∧ c_scope p = Some "view".
Proof. by rewrite or_default_empty, andb_true_iff, !str_is_true. Qed.

Lemma jwt_secret_unset :
  GSIMS_JWT_SECRET e = None ∨ GSIMS_JWT_SECRET e = Some EmptyString ↔ JWT_SECRET e = None.
Proof.
  unfold JWT_SECRET, or_null. destruct (GSIMS_JWT_SECRET e) as [[|a s]|]; simpl.
  - split; [done | by right].
  - split; [by intros [|] | done].
  - split; [done | by left].
Qed.
End TokenDecisions.

(** X8: with the token secret set, [GET /jpg/:sid] of [server.js] decides
    in this order: no token, or an empty one, is 401 missing_token; a
    token that does not verify is 401 invalid_token; a verified token for
    another session or another scope than view is 403 forbidden; only a
    verified view token of this very session reaches the snapshot. *)
Theorem view_guard_decision
    (verify : string → string → option Token.claims) (e : Token.env)
    (secret : string) (req : Token.request) (st : Relay.relay) :
  Token.JWT_SECRET e = Some secret →
  (Token.bearerOrQueryToken req = None ∨ Token.bearerOrQueryToken req = Some EmptyString →
   Token.get_jpg verify e req st = Relay.mkResponse 401 (Relay.ErrorJson "missing_token")) ∧
  (∀ tok, Token.bearerOrQueryToken req = Some tok → tok ≠ EmptyString →
     verify tok secret = None →
     Token.get_jpg verify e req st = Relay.mkResponse 401 (Relay.ErrorJson "invalid_token")) ∧
  (∀ tok p, Token.bearerOrQueryToken req = Some tok → tok ≠ EmptyString →
     verify tok secret = Some p →
     Token.c_sid p ≠ Some (Token.params_sid req) ∨ Token.c_scope p ≠ Some "view" →
     Token.get_jpg verify e req st = Relay.mkResponse 403 (Relay.ErrorJson "forbidden")) ∧
  (∀ tok p, Token.bearerOrQueryToken req = Some tok → tok ≠ EmptyString →
     verify tok secret = Some p →
     Token.c_sid p = Some (Token.params_sid req) → Token.c_scope p = Some "view" →
     Token.get_jpg verify e req st = Relay.jpg_handler (Token.params_sid req) st).
Proof.
  intros Hsec. unfold Token.get_jpg, Token.viewGuard, Token.verifyTokenOrOpen.
  rewrite Hsec. split_and!.
  - by intros [-> | ->].
  - intros tok -> Htok%truthy_true Hv. by rewrite Htok, Hv.
  - intros tok p -> Htok%truthy_true Hv Hbad. rewrite Htok, Hv. simpl.
    destruct (_ && _) eqn:Hchk; [|done].
    apply view_check_true in Hchk. tauto.
  - intros tok p -> Htok%truthy_true Hv Hsid Hscope. rewrite Htok, Hv. simpl.
    assert (Hchk : Token.str_is (Token.c_sid p)
                     (JS.or_default (Some (Token.params_sid req)) EmptyString)
                   && Token.str_is (Token.c_scope p) "view" = true)
      by by apply view_check_true.
    by rewrite Hchk.
Qed.

Lemma view_guard_decision_witness :
  Token.get_jpg Demo.verify Demo.secure (Token.mkRequest None None "7") Demo.busy
    = Relay.mkResponse 401 (Relay.ErrorJson "missing_token") ∧
  Token.get_jpg Demo.verify Demo.secure
    (Token.mkRequest None (Some (JS.QStr "k1.view.7")) "7") Demo.busy
    = Relay.mkResponse 200 (Relay.Image Demo.F1).
Proof.
  split.
  - destruct (view_guard_decision Demo.verify Demo.secure "k1"
                (Token.mkRequest None None "7") Demo.busy eq_refl) as (H & _).
    apply H. by left.
  - destruct (view_guard_decision Demo.verify Demo.secure "k1"
                (Token.mkRequest None (Some (JS.QStr "k1.view.7")) "7") Demo.busy eq_refl)
      as (_ & _ & _ & H).
    rewrite (H "k1.view.7" (Token.mkClaims (Some "7") (Some "view")));
      [reflexivity | reflexivity | discriminate | reflexivity | reflexivity | reflexivity].
Defined.

(** X9: [server.js] runs in open mode exactly when [GSIMS_JWT_SECRET] is
    unset or empty, and then asks for no credential anywhere: snapshots
    and status are served to every request, and every upgrade on [/ws] is
    completed for the session the query names, or 0. *)
Theorem open_mode_asks_for_nothing
    (verify : string → string → option Token.claims) (e : Token.env) :
  Token.GSIMS_JWT_SECRET e = None ∨ Token.GSIMS_JWT_SECRET e = Some EmptyString →
  (∀ req st, Token.get_jpg verify e req st = Relay.jpg_handler (Token.params_sid req) st) ∧
  (∀ req st, Token.get_status verify e req st =
             Relay.mkResponse 200
               (Relay.StatusJson (Some "open") (Relay.streams st)
                  (Relay.sizes (Relay.watchers st)) None)) ∧
  (∀ w req res st, Token.get_mjpg verify e w req res st =
     (Relay.mjpg_handler w (Token.params_sid req) res
        ≫= λ _, mret (Relay.mkResponse 200 Relay.Multipart)) st) ∧
  (∀ u, Token.pathname u = "/ws" →
        Token.upgrade verify e (Some u)
        = Token.Accepted (JS.or_default (Token.searchParams_get "sid" (Token.searchParams u)) "0")).
Proof.
  intros Hopen%jwt_secret_unset. split_and!.
  - intros req st. unfold Token.get_jpg, Token.viewGuard. by rewrite guard_open.
  - intros req st. unfold Token.get_status, Token.statusGuard.
    by rewrite guard_open, Hopen.
  - intros w req res st. unfold Token.get_mjpg, Token.viewGuard. by rewrite guard_open.
  - intros u Hpath. unfold Token.upgrade. by rewrite Hpath, Hopen.
Qed.

Lemma open_mode_asks_for_nothing_witness :
  Token.upgrade Demo.verify (Token.mkEnv (Some EmptyString) (Some "api"))
    (Some (Token.mkUrl "/ws" [("sid", "7")])) = Token.Accepted "7".
Proof.
  destruct (open_mode_asks_for_nothing Demo.verify
              (Token.mkEnv (Some EmptyString) (Some "api"))) as (_ & _ & _ & H);
    [by right|].
  apply (H (Token.mkUrl "/ws" [("sid", "7")])). reflexivity.
Defined.

(** X10: with the token secret set, the upgrade handler of [server.js]
    completes the upgrade for session [sid] exactly when the path is
    [/ws], the [t] parameter is a non-empty token that verifies, the token
    carries the scope upload and the session [sid], and [sid] is the
    session the query names, or 0 when it names none. *)
Theorem upgrade_accepts_exactly_upload_tokens
    (verify : string → string → option Token.claims) (e : Token.env)
    (secret : string) (u : Token.url) (sid : string) :
  Token.JWT_SECRET e = Some secret →
  Token.upgrade verify e (Some u) = Token.Accepted sid ↔
  Token.pathname u = "/ws" ∧
  sid = JS.or_default (Token.searchParams_get "sid" (Token.searchParams u)) "0" ∧
  ∃ tok p, Token.searchParams_get "t" (Token.searchParams u) = Some tok ∧
           tok ≠ EmptyString ∧ verify tok secret = Some p ∧
           Token.c_sid p = Some sid ∧ Token.c_scope p = Some "upload".
Proof.
  intros Hsec. unfold Token.upgrade. rewrite Hsec. split.
  - destruct (String.eqb (Token.pathname u) "/ws") eqn:Hpath; simpl; [|done].
    apply String.eqb_eq in Hpath.
    destruct (Token.searchParams_get "t" (Token.searchParams u)) as [tok|] eqn:Ht;
      [|by unfold JS.or_default].
    rewrite or_default_empty.
    destruct (JS.truthy tok) eqn:Htok; simpl; [|done].
    destruct (verify tok secret) as [p|] eqn:Hv; [|done].
    destruct (_ && _) eqn:Hchk; simpl; [|done].
    intros [= <-]. apply andb_true_iff in Hchk as [Hs%str_is_true Hsc%str_is_true].
    split_and!; try done. exists tok, p. split_and!; try done. by apply truthy_true.
  - intros (Hpath & -> & tok & p & Ht & Htok & Hv & Hs & Hsc).
    rewrite Hpath, Ht. simpl. rewrite (or_default_id tok) by done.
    apply truthy_true in Htok. rewrite Htok, Hv. simpl.
    apply str_is_true in Hs, Hsc. by rewrite Hs, Hsc.
Qed.

Lemma upgrade_accepts_exactly_upload_tokens_witness :
  Token.upgrade Demo.verify Demo.secure
    (Some (Token.mkUrl "/ws" [("sid", "7"); ("t", "k1.upload.7")])) = Token.Accepted "7".
Proof.
  apply (upgrade_accepts_exactly_upload_tokens Demo.verify Demo.secure "k1"
           (Token.mkUrl "/ws" [("sid", "7"); ("t", "k1.upload.7")]) "7" eq_refl).
  split_and!; [reflexivity | reflexivity |].
  exists "k1.upload.7", (Token.mkClaims (Some "7") (Some "upload")).
  split_and!; [reflexivity | discriminate | reflexivity | reflexivity | reflexivity].
Defined.

(** X11: scopes do not carry over between endpoints of [server.js]: with
    the token secret set, a verified token whose scope is not view gets 403
    on [GET /jpg] and [GET /mjpg], one whose scope is not admin gets 403 on
    [GET /status], and one whose scope is not upload has its upgrade socket
    destroyed, whichever session it names. *)
Theorem scopes_do_not_carry_over
    (verify : string → string → option Token.claims) (e : Token.env)
    (secret tok : string) (p : Token.claims) :
  Token.JWT_SECRET e = Some secret →
  tok ≠ EmptyString →
  verify tok secret = Some p →
  (Token.c_scope p ≠ Some "view" →
   ∀ req st, Token.bearerOrQueryToken req = Some tok →
     Token.get_jpg verify e req st = Relay.mkResponse 403 (Relay.ErrorJson "forbidden") ∧
     ∀ w res, Token.get_mjpg verify e w req res st
              = (Relay.Normal (Relay.mkResponse 403 (Relay.ErrorJson "forbidden")), st)) ∧
  (Token.c_scope p ≠ Some "admin" →
   ∀ req st, Token.bearerOrQueryToken req = Some tok →
     Token.get_status verify e req st = Relay.mkResponse 403 (Relay.ErrorJson "forbidden")) ∧
  (Token.c_scope p ≠ Some "upload" →
   ∀ u, Token.searchParams_get "t" (Token.searchParams u) = Some tok →
     Token.upgrade verify e (Some u) = Token.Destroyed).
Proof.
  intros Hsec Hne Hv.
  assert (Htok : JS.truthy tok = true) by by apply truthy_true.
  split_and!.
  - intros Hscope%str_is_false req st Hb.
    assert (Hg : Token.viewGuard verify e req
                 = Token.Rejected (Relay.mkResponse 403 (Relay.ErrorJson "forbidden"))).
    { unfold Token.viewGuard, Token.verifyTokenOrOpen.
      rewrite Hsec, Hb, Htok, Hv. simpl. by rewrite Hscope, andb_false_r. }
    unfold Token.get_jpg, Token.get_mjpg. by rewrite Hg.
  - intros Hscope%str_is_false req st Hb.
    unfold Token.get_status, Token.statusGuard, Token.verifyTokenOrOpen.
    rewrite Hsec, Hb, Htok, Hv. simpl. by rewrite Hscope.
  - intros Hscope%str_is_false u Ht. unfold Token.upgrade.
    destruct (negb (String.eqb (Token.pathname u) "/ws")); [done|].
    rewrite Hsec, Ht. rewrite (or_default_id tok) by done.
    rewrite Htok, Hv. simpl. by rewrite Hscope, andb_false_r.
Qed.

Lemma scopes_do_not_carry_over_witness :
  Token.upgrade Demo.verify Demo.secure
    (Some (Token.mkUrl "/ws" [("sid", "7"); ("t", "k1.view.7")])) = Token.Destroyed ∧
  Token.get_status Demo.verify Demo.secure
    (Token.mkRequest (Some "Bearer k1.view.7") None EmptyString) Demo.busy
    = Relay.mkResponse 403 (Relay.ErrorJson "forbidden").
Proof.
  destruct (scopes_do_not_carry_over Demo.verify Demo.secure "k1" "k1.view.7"
              (Token.mkClaims (Some "7") (Some "view")) eq_refl)
    as (_ & Hstatus & Hup); [discriminate | reflexivity |].
  split.
  - apply Hup; [discriminate | reflexivity].
  - apply Hstatus; [discriminate | reflexivity].
Defined.

(** X12: the [Authorization] header wins over the query: when it starts
    with [Bearer ], the token is the trimmed rest of the header and [?t=]
    is not looked at, so a header token that does not verify is answered
    401 invalid_token even when [?t=] holds a valid token. *)
Theorem bearer_header_shadows_query_token
    (verify : string → string → option Token.claims) (e : Token.env)
    (secret rest : string) (req : Token.request) (st : Relay.relay) :
  Token.authorization req = Some ("Bearer " +:+ rest) →
  Token.bearerOrQueryToken req = Some (JS.trim rest) ∧
  (Token.JWT_SECRET e = Some secret → JS.trim rest ≠ EmptyString →
   verify (JS.trim rest) secret = None →
   Token.get_jpg verify e req st = Relay.mkResponse 401 (Relay.ErrorJson "invalid_token")).
Proof.
  intros Hauth.
  assert (Hb : Token.bearerOrQueryToken req = Some (JS.trim rest)).
  { unfold Token.bearerOrQueryToken. rewrite Hauth. simpl.
    change (EmptyString +:+ rest) with rest. unfold JS.startsWith.
    assert (Hp : String.prefix EmptyString rest = true) by by destruct rest.
    by rewrite Hp. }
  split; [done|]. intros Hsec Hne%truthy_true Hv.
  unfold Token.get_jpg, Token.viewGuard, Token.verifyTokenOrOpen.
  by rewrite Hsec, Hb, Hne, Hv.
Qed.

Lemma bearer_header_shadows_query_token_witness :
  Token.get_jpg Demo.verify Demo.secure
    (Token.mkRequest (Some "Bearer nonsense") (Some (JS.QStr "k1.view.7")) "7") Demo.busy
  = Relay.mkResponse 401 (Relay.ErrorJson "invalid_token").
Proof.
  destruct (bearer_header_shadows_query_token Demo.verify Demo.secure "k1" "nonsense"
              (Token.mkRequest (Some "Bearer nonsense") (Some (JS.QStr "k1.view.7")) "7")
              Demo.busy eq_refl) as [_ H].
  apply H; [reflexivity | discriminate | reflexivity].
Defined.

(** ** The digest handshake of the second server *)

Section DigestHandshake.
Import JS Relay Digest.

Lemma safeEqual_eq a b : safeEqual a b = true ↔ a = b.
Proof.
  unfold safeEqual, timingSafeEqual.
  destruct (String.length a =? String.length b) eqn:Hlen; simpl.
  - apply String.eqb_eq.
  - split; [done|]. intros ->. rewrite Nat.eqb_refl in Hlen. done.
Qed.

End DigestHandshake.

(** ** A credential of one session at the endpoints of another *)

(** C2, as stated, fails on the second server: its [GET /jpg/:sid] has no
    guard, so a request for session 7 that bears the digest of session 8
    is answered 200 with the frame of session 7. *)
Lemma digest_viewer_serves_other_session :
  ¬ Stated.viewer_refuses_other_session Demo.digest Demo.shared "8" "7" "<s3cret:8>"
      (Digest.mkRequest None None "7") Demo.busy.
Proof.
  unfold Stated.viewer_refuses_other_session. intros H.
  assert (Hserved : Relay.status (Digest.get_jpg (Digest.mkRequest None None "7") Demo.busy)
                    = 200) by reflexivity.
  rewrite H in Hserved; [discriminate | reflexivity | discriminate | reflexivity].
Qed.

(** C2, amended: in [server.js] with the token secret set, a token that
    verifies and carries session [A] is refused on every endpoint of
    another session [B]: 403 forbidden on [GET /jpg/B] and [GET /mjpg/B],
    which then leave the state untouched, and a destroyed socket on the
    upgrade for [B].  In the second server the upgrade for [B] destroys the
    socket of a request bearing the digest of [A], unless the two digests
    coincide; its [GET /jpg/:sid] and [GET /mjpg/:sid] check no credential
    and serve every request (200 or 204, never 403). *)
Theorem cross_session_credential_rejected
    (verify : string → string → option Token.claims) (e : Token.env)
    (secret tok : string) (p : Token.claims)
    (sha256_hex : string → string) (de : Digest.env) (A B : string) :
  Token.JWT_SECRET e = Some secret →
  tok ≠ EmptyString →
  verify tok secret = Some p →
  Token.c_sid p = Some A →
  A ≠ B →
  (∀ req st, Token.params_sid req = B → Token.bearerOrQueryToken req = Some tok →
     Token.get_jpg verify e req st = Relay.mkResponse 403 (Relay.ErrorJson "forbidden") ∧
     ∀ w res, Token.get_mjpg verify e w req res st
              = (Relay.Normal (Relay.mkResponse 403 (Relay.ErrorJson "forbidden")), st)) ∧
  (∀ u, JS.or_default (Token.searchParams_get "sid" (Token.searchParams u)) "0" = B →
        Token.searchParams_get "t" (Token.searchParams u) = Some tok →
        Token.upgrade verify e (Some u) = Token.Destroyed) ∧
  (Digest.tokenForSidHex sha256_hex de A ≠ Digest.tokenForSidHex sha256_hex de B →
   ∀ u, JS.or_default (Digest.searchParams_get "sid" (Digest.searchParams u)) EmptyString = B →
        Digest.searchParams_get "token" (Digest.searchParams u)
          = Some (Digest.tokenForSidHex sha256_hex de A) →
        Digest.upgrade sha256_hex de (Some u) = Digest.Destroyed) ∧
  (∀ req st,
     Digest.get_jpg req st = Relay.jpg_handler (Digest.params_sid req) st ∧
     (Relay.status (Digest.get_jpg req st) = 200 ∨ Relay.status (Digest.get_jpg req st) = 204) ∧
     ∀ w res, Digest.get_mjpg w req res st =
              (Relay.mjpg_handler w (Digest.params_sid req) res
                 ≫= λ _, mret (Relay.mkResponse 200 Relay.Multipart)) st).
Proof.
  intros Hsec Htok Hv Hsid Hne.
  assert (Htruthy : JS.truthy tok = true) by by apply truthy_true.
  split_and!.
  - intros req st HB Hbearer.
    assert (Hg : Token.viewGuard verify e req
                 = Token.Rejected (Relay.mkResponse 403 (Relay.ErrorJson "forbidden"))).
    { unfold Token.viewGuard, Token.verifyTokenOrOpen.
      rewrite Hsec, Hbearer, Htruthy, Hv. simpl.
      rewrite or_default_empty, HB, Hsid, str_is_other by done. reflexivity. }
    unfold Token.get_jpg, Token.get_mjpg. rewrite Hg. by split.
  - intros u HB Ht. unfold Token.upgrade.
    destruct (negb (String.eqb (Token.pathname u) "/ws")); [done|].
    rewrite Hsec, Ht, HB. simpl.
    rewrite (or_default_id tok) by done. rewrite Htruthy, Hv. simpl.
    rewrite Hsid, str_is_other by done. reflexivity.
  - intros Hdiff u HB Ht. unfold Digest.upgrade.
    destruct (negb (String.eqb (Digest.pathname u) "/ws")); [done|].
    rewrite HB, Ht, or_default_empty. simpl.
    destruct (Digest.safeEqual _ _) eqn:Heq; [|by rewrite !orb_true_r].
    apply safeEqual_eq in Heq. congruence.
  - intros req st. split_and!; try reflexivity.
    unfold Digest.get_jpg, Relay.jpg_handler.
    destruct (Relay.latest st !! _); simpl; auto.
Qed.

Lemma cross_session_credential_rejected_witness :
  Token.get_jpg Demo.verify Demo.secure
    (Token.mkRequest None (Some (JS.QStr "k1.view.7")) "8") Demo.busy
    = Relay.mkResponse 403 (Relay.ErrorJson "forbidden") ∧
  Token.upgrade Demo.verify Demo.secure
    (Some (Token.mkUrl "/ws" [("sid", "8"); ("t", "k1.upload.7")])) = Token.Destroyed ∧
  Digest.upgrade Demo.digest Demo.shared
    (Some (Digest.mkUrl "/ws" [("sid", "8"); ("token", "<s3cret:7>")])) = Digest.Destroyed.
Proof.
  split_and!.
  - destruct (cross_session_credential_rejected Demo.verify Demo.secure "k1" "k1.view.7"
                (Token.mkClaims (Some "7") (Some "view")) Demo.digest Demo.shared "7" "8")
      as (Hview & _);
      [reflexivity | discriminate | reflexivity | reflexivity | discriminate |].
    apply Hview; reflexivity.
  - destruct (cross_session_credential_rejected Demo.verify Demo.secure "k1" "k1.upload.7"
                (Token.mkClaims (Some "7") (Some "upload")) Demo.digest Demo.shared "7" "8")
      as (_ & Hup & _);
      [reflexivity | discriminate | reflexivity | reflexivity | discriminate |].
    apply Hup; reflexivity.
  - destruct (cross_session_credential_rejected Demo.verify Demo.secure "k1" "k1.upload.7"
                (Token.mkClaims (Some "7") (Some "upload")) Demo.digest Demo.shared "7" "8")
      as (_ & _ & Hdig & _);
      [reflexivity | discriminate | reflexivity | reflexivity | discriminate |].
    apply Hdig; [discriminate | reflexivity | reflexivity].
Defined.

(** X13: the upgrade handler of the second server completes the upgrade
    for session [sid] exactly when the path is [/ws], [sid] is the
    non-empty [sid] parameter and the [token] parameter is the (non-empty)
    hex digest of the shared secret, a colon and [sid]; so the token of
    one session is refused for another unless the two digests coincide. *)
Theorem digest_upgrade_accepts_exactly_the_digest
    (sha256_hex : string → string) (e : Digest.env) (u : Digest.url) (sid : string) :
  (Digest.upgrade sha256_hex e (Some u) = Digest.Accepted sid ↔
   Digest.pathname u = "/ws" ∧
   Digest.searchParams_get "sid" (Digest.searchParams u) = Some sid ∧
   sid ≠ EmptyString ∧
   Digest.searchParams_get "token" (Digest.searchParams u)
     = Some (Digest.tokenForSidHex sha256_hex e sid) ∧
   Digest.tokenForSidHex sha256_hex e sid ≠ EmptyString) ∧
  (∀ other,
     Digest.pathname u = "/ws" →
     Digest.searchParams_get "sid" (Digest.searchParams u) = Some sid →
     Digest.searchParams_get "token" (Digest.searchParams u)
       = Some (Digest.tokenForSidHex sha256_hex e other) →
     Digest.tokenForSidHex sha256_hex e other ≠ Digest.tokenForSidHex sha256_hex e sid →
     Digest.upgrade sha256_hex e (Some u) = Digest.Destroyed).
Proof.
  split.
  - unfold Digest.upgrade. split.
    + destruct (String.eqb (Digest.pathname u) "/ws") eqn:Hpath; simpl; [|done].
      apply String.eqb_eq in Hpath.
      destruct (Digest.searchParams_get "sid" (Digest.searchParams u)) as [x|];
        [|by unfold JS.or_default].
      destruct (Digest.searchParams_get "token" (Digest.searchParams u)) as [t|];
        [|unfold JS.or_default; simpl; by rewrite orb_true_r].
      rewrite !or_default_empty.
      destruct (JS.truthy x) eqn:Hs; simpl; [|done].
      destruct (JS.truthy t) eqn:Ht; simpl; [|done].
      destruct (Digest.safeEqual _ t) eqn:Heq; simpl; [|done].
      intros [= ->]. apply safeEqual_eq in Heq. subst t.
      apply truthy_true in Hs, Ht. done.
    + intros (Hpath & Hs & Hne & Ht & Htne).
      rewrite Hpath, Hs, Ht, !or_default_empty. simpl.
      apply truthy_true in Hne, Htne. rewrite Hne, Htne. simpl.
      assert (Heq : Digest.safeEqual (Digest.tokenForSidHex sha256_hex e sid)
                      (Digest.tokenForSidHex sha256_hex e sid) = true)
        by by apply safeEqual_eq.
      by rewrite Heq.
  - intros other Hpath Hs Ht Hdiff. unfold Digest.upgrade.
    rewrite Hpath, Hs, Ht, !or_default_empty. simpl.
    destruct (Digest.safeEqual _ _) eqn:Heq; [|by rewrite !orb_true_r].
    apply safeEqual_eq in Heq. congruence.
Qed.

Lemma digest_upgrade_accepts_exactly_the_digest_witness :
  Digest.upgrade Demo.digest Demo.shared
    (Some (Digest.mkUrl "/ws" [("sid", "7"); ("token", "<s3cret:7>")])) = Digest.Accepted "7" ∧
  Digest.upgrade Demo.digest Demo.shared
    (Some (Digest.mkUrl "/ws" [("sid", "8"); ("token", "<s3cret:7>")])) = Digest.Destroyed.
Proof.
  split.
  - apply (digest_upgrade_accepts_exactly_the_digest Demo.digest Demo.shared
             (Digest.mkUrl "/ws" [("sid", "7"); ("token", "<s3cret:7>")]) "7").
    split_and!; [reflexivity | reflexivity | discriminate | reflexivity | discriminate].
  - destruct (digest_upgrade_accepts_exactly_the_digest Demo.digest Demo.shared
                (Digest.mkUrl "/ws" [("sid", "8"); ("token", "<s3cret:7>")]) "8")
      as [_ H].
    apply (H "7"); [reflexivity | reflexivity | reflexivity | discriminate].
Defined.

(** ** The admin code *)

(** X14: the admin code of the second server is never empty, whatever
    [GSIMS_ADMIN_CODE] is set to, so a request that carries no code at all
    is not an administrator: [GET /admin] answers it 404, and
    [POST /admin/disconnect/:sid] answers it 404 and changes nothing. *)
Theorem no_code_is_never_admin
    (e : Digest.env) (random_hex : string) (req : Digest.request)
    (w : Relay.world) (st : Relay.relay) :
  random_hex ≠ EmptyString →
  Digest.query_code req = None →
  Digest.x_gsims_code req = None →
  Digest.ADMIN_CODE e random_hex ≠ EmptyString ∧
  Digest.isAdmin e random_hex req = false ∧
  Digest.get_admin e random_hex req = Relay.mkResponse 404 (Relay.Plain "Not found") ∧
  Digest.post_admin_disconnect e random_hex w req st
    = (Relay.Normal (Relay.mkResponse 404 (Relay.Plain "Not found")), st).
Proof.
  intros Hrnd Hq Hh.
  assert (Hcode : Digest.ADMIN_CODE e random_hex ≠ EmptyString).
  { unfold Digest.ADMIN_CODE, JS.or_default.
    destruct (Digest.GSIMS_ADMIN_CODE e) as [c|]; [|done].
    destruct (JS.truthy c) eqn:Hc; [by apply truthy_true | done]. }
  assert (Hadm : Digest.isAdmin e random_hex req = false).
  { assert (Hne : String.eqb EmptyString (Digest.ADMIN_CODE e random_hex) = false)
      by (apply String.eqb_neq; congruence).
    unfold Digest.isAdmin. rewrite Hq, Hh.
    change (JS.or_default None EmptyString) with EmptyString.
    cbn [JS.qtruthy]. by rewrite Hne. }
  split_and!; try done.
  - unfold Digest.get_admin. by rewrite Hadm.
  - unfold Digest.post_admin_disconnect. by rewrite Hadm.
Qed.

Lemma no_code_is_never_admin_witness :
  Digest.post_admin_disconnect (Digest.mkEnv None (Some EmptyString)) "0f" Relay.calm
    (Digest.mkRequest None None "7") Demo.busy
  = (Relay.Normal (Relay.mkResponse 404 (Relay.Plain "Not found")), Demo.busy).
Proof.
  destruct (no_code_is_never_admin (Digest.mkEnv None (Some EmptyString)) "0f"
              (Digest.mkRequest None None "7") Relay.calm Demo.busy)
    as (_ & _ & _ & H); [discriminate | reflexivity | reflexivity |].
  exact H.
Defined.

(** ** The uploader registry over time *)

Section UploaderHistory.
Import JS Relay System Observed.

Lemma set_delete_fresh x s : x ∉ s → set_delete x s = s.
Proof.
  intros Hout. unfold set_delete. apply filter_all. intros y Hy ->. done.
Qed.

Lemma set_delete_add_fresh x s : x ∉ s → set_delete x (set_add x s) = s.
Proof.
  intros Hout. unfold set_add. rewrite decide_False by done.
  unfold set_delete. rewrite filter_app. simpl.
  rewrite filter_cons_False by (intros Hne; by apply Hne).
  rewrite filter_nil, app_nil_r. by apply set_delete_fresh.
Qed.

Lemma set_add_nil x : set_add x [] = [x].
Proof. reflexivity. Qed.

Lemma set_delete_self x : set_delete x [x] = [].
Proof. unfold set_delete. by rewrite filter_cons_False, filter_nil by (intros Hne; by apply Hne). Qed.

(** The registry entry of one session key follows the connections and
    closes of that key. *)
Lemma step_uploaders_tally sid st ev acc :
  uploaders st !! sid = (if acc is [] then None else Some acc) →
  uploaders (step st ev) !! sid
  = (if tally sid acc ev is [] then None else Some (tally sid acc ev)).
Proof.
  intros Hacc. rewrite step_uploaders.
  destruct ev as [w p res|p res|w s buf|ws s|ws s|w p]; try done; cbn [tally].
  - rewrite on_connection_uploaders.
    destruct (String.eqb (or_default s "0") sid) eqn:Hk.
    + apply String.eqb_eq in Hk. rewrite Hk, lookup_alter_eq, Hacc.
      pose proof (set_add_nonempty ws acc) as Hne.
      destruct acc as [|a acc].
      * rewrite lookup_insert_eq. reflexivity.
      * rewrite Hacc. simpl. by destruct (set_add ws (a :: acc)).
    + apply String.eqb_neq in Hk. rewrite lookup_alter_ne by done.
      destruct (uploaders st !! or_default s "0"); [done|].
      by rewrite lookup_insert_ne.
  - rewrite on_close_uploaders.
    destruct (String.eqb (or_default s "0") sid) eqn:Hk.
    + apply String.eqb_eq in Hk. rewrite Hk, Hacc.
      destruct acc as [|a acc]; [by rewrite Hacc|].
      destruct (set_delete ws (a :: acc)) as [|b l] eqn:Hdel; simpl.
      * apply lookup_delete_eq.
      * apply lookup_insert_eq.
    + apply String.eqb_neq in Hk.
      destruct (uploaders st !! or_default s "0") as [set|]; [|done].
      destruct (length (set_delete ws set) =? 0).
      * by rewrite lookup_delete_ne.
      * by rewrite lookup_insert_ne.
Qed.

Lemma exec_uploaders_tally sid evs st acc :
  uploaders st !! sid = (if acc is [] then None else Some acc) →
  uploaders (exec evs st) !! sid
  = (if foldl (tally sid) acc evs is [] then None else Some (foldl (tally sid) acc evs)).
Proof.
  revert st acc. induction evs as [|ev evs IH]; intros st acc Hacc; [done|].
  simpl. apply IH. by apply step_uploaders_tally.
Qed.

Lemma close_all_tally sid l acc :
  sid ≠ EmptyString →
  (∀ x, x ∈ acc → x ∈ l) →
  foldl (tally sid) acc ((λ ws, Close ws (Some sid)) <$> l) = [].
Proof.
  intros Hsid. revert acc. induction l as [|x l IH]; intros acc Hsub.
  - simpl. destruct acc as [|a acc]; [done|].
    exfalso. apply (not_elem_of_nil a), Hsub. by left.
  - simpl. rewrite or_default_param by done. rewrite String.eqb_refl.
    apply IH. intros y [Hne Hy]%set_delete_elem.
    apply Hsub, elem_of_cons in Hy as [->|Hy]; done.
Qed.

Lemma closes_keep_note s l acc :
  foldl (note s) acc ((λ ws, Close ws (Some s)) <$> l) = acc.
Proof. revert acc. induction l as [|x l IH]; intros acc; [done|]. simpl. apply IH. Qed.

Lemma tally_members sid evs acc x :
  (∀ ws ws_sid, Connection ws ws_sid ∈ evs → or_default ws_sid "0" ≠ sid) →
  x ∈ foldl (tally sid) acc evs →
  x ∈ acc ∧ ∀ ws_sid, or_default ws_sid "0" = sid → Close x ws_sid ∉ evs.
Proof.
  revert acc. induction evs as [|ev evs IH]; intros acc Hconn Hx.
  - split; [done|]. intros ws_sid _. apply not_elem_of_nil.
  - simpl in Hx. apply IH in Hx as [Hx Hclosed];
      [|intros ws ws_sid Hin; apply (Hconn ws); by right].
    assert (Hstep : x ∈ acc ∧ ∀ ws_sid, or_default ws_sid "0" = sid → ev ≠ Close x ws_sid).
    { destruct ev as [w p res|p res|w s buf|ws s|ws s|w p]; simpl in Hx; try done.
      - assert (Hk : String.eqb (or_default s "0") sid = false).
        { apply String.eqb_neq. apply (Hconn ws). by left. }
        rewrite Hk in Hx. done.
      - destruct (String.eqb (or_default s "0") sid) eqn:Hk.
        + apply set_delete_elem in Hx as [Hne Hx]. split; [done|].
          intros ws_sid _ [= -> _]. done.
        + apply String.eqb_neq in Hk. split; [done|].
          intros ws_sid Hkey [= _ ->]. done. }
    destruct Hstep as [Hacc Hhead]. split; [done|].
    intros ws_sid Hkey Hin. apply elem_of_cons in Hin as [Heq|Hin].
    + by apply (Hhead ws_sid).
    + by apply (Hclosed ws_sid).
Qed.

Lemma note_unpublished s evs :
  (∀ ev, ev ∈ evs → publishes s ev = false) → foldl (note s) None evs = None.
Proof.
  induction evs as [|ev evs IH]; intros Hall; [done|]. simpl.
  assert (Hev : publishes s ev = false) by (apply Hall; by left).
  assert (Hnote : note s None ev = None).
  { destruct ev as [w p res|p res|w sid buf|ws x|ws x|w p]; simpl; try done.
    - simpl in Hev. by rewrite Hev.
    - by destruct (String.eqb p s). }
  rewrite Hnote. apply IH. intros ev' Hin. apply Hall. by right.
Qed.
End UploaderHistory.

(** C10: in the second server every value of [uploaders] is a non-empty
    set in every reachable state, so the status endpoint never reports a
    session with zero uploaders.  The entry of a session key holds exactly
    the channels that connected with that key and have not closed since:
    it appears when the first channel connects and disappears when the
    last of them closes. *)
Theorem uploader_entries_never_empty (evs : list System.event) :
  let st := System.exec evs Relay.init in
  map_Forall (λ _ set, set ≠ []) (Relay.uploaders st) ∧
  (∀ req, map_Forall (λ _ n, n ≠ 0) (System.uploader_counts (Digest.get_status req st))) ∧
  (∀ sid, Relay.uploaders st !! sid =
          (if Observed.open_channels sid evs is [] then None
           else Some (Observed.open_channels sid evs))) ∧
  (∀ ws s, Observed.open_channels (JS.or_default s "0") evs = [] →
           Relay.uploaders (System.exec (evs ++ [System.Connection ws s]) Relay.init)
             !! JS.or_default s "0" = Some [ws]) ∧
  (∀ ws s, Observed.open_channels (JS.or_default s "0") evs = [ws] →
           Relay.uploaders (System.exec (evs ++ [System.Close ws s]) Relay.init)
             !! JS.or_default s "0" = None).
Proof.
  intros st.
  assert (Hinv : map_Forall (λ _ set, set ≠ []) (Relay.uploaders st))
    by (apply exec_keeps_uploader_sets_nonempty; apply map_Forall_empty).
  assert (Hhist : ∀ l sid,
            Relay.uploaders (System.exec l Relay.init) !! sid =
            (if Observed.open_channels sid l is [] then None
             else Some (Observed.open_channels sid l))).
  { intros l sid. apply (exec_uploaders_tally sid l Relay.init []), lookup_empty. }
  split_and!; try done.
  - intros req. unfold Digest.get_status, System.uploader_counts, Relay.sizes. simpl.
    apply map_Forall_fmap. intros k set Hk. simpl.
    intros Hlen. apply nil_length_inv in Hlen. by apply (Hinv k set).
  - intros sid. apply Hhist.
  - intros ws s Hnone. rewrite Hhist. unfold Observed.open_channels in *.
    rewrite foldl_app, Hnone. simpl. rewrite String.eqb_refl.
    rewrite set_add_nil. reflexivity.
  - intros ws s Hone. rewrite Hhist. unfold Observed.open_channels in *.
    rewrite foldl_app, Hone. simpl. rewrite String.eqb_refl.
    rewrite set_delete_self. reflexivity.
Qed.

Lemma uploader_entries_never_empty_witness :
  let evs := [System.Connection 1 (Some "7"); System.Connection 2 (Some "7");
              System.Close 1 (Some "7")] in
  Relay.uploaders (System.exec evs Relay.init) !! "7" = Some [2] ∧
  Relay.uploaders (System.exec (evs ++ [System.Close 2 (Some "7")]) Relay.init) !! "7" = None.
Proof.
  intros evs.
  destruct (uploader_entries_never_empty evs) as (_ & _ & _ & _ & Hclose).
  split.
  - vm_compute. reflexivity.
  - apply (Hclose 2 (Some "7")). vm_compute. reflexivity.
Defined.


(** X15: in every reachable state the registry of the second server holds
    under a session key exactly the channels that connected with that key
    and have not closed since, in order of connection, and no entry when
    there is none; [GET /status] reports their number. *)
Theorem uploaders_are_the_open_channels (evs : list System.event) (sid : string) :
  let st := System.exec evs Relay.init in
  Relay.uploaders st !! sid =
    (if Observed.open_channels sid evs is [] then None
     else Some (Observed.open_channels sid evs)) ∧
  (∀ req, System.uploader_counts (Digest.get_status req st) !! sid =
          (if Observed.open_channels sid evs is [] then None
           else Some (length (Observed.open_channels sid evs)))).
Proof.
  intros st.
  assert (Hup : Relay.uploaders st !! sid =
                (if Observed.open_channels sid evs is [] then None
                 else Some (Observed.open_channels sid evs)))
    by (apply (exec_uploaders_tally sid evs Relay.init []), lookup_empty).
  split; [done|]. intros req.
  unfold Digest.get_status, System.uploader_counts, Relay.sizes. simpl.
  rewrite lookup_fmap, Hup. by destruct (Observed.open_channels sid evs).
Qed.

(** X16: after an administrative disconnect of a session, whatever
    happens next, once the close event of every channel that was tracked
    for it has arrived the session has neither an uploader entry nor a
    stored frame, provided that since the disconnect no frame was
    published for it and no channel connected to it. *)
Theorem disconnect_then_closes_clear_session
    (evs later : list System.event) (w : Relay.world) (s : string) (set : list JS.handle) :
  Relay.uploaders (System.exec evs Relay.init) !! s = Some set →
  (∀ ev, ev ∈ later → System.publishes s ev = false) →
  (∀ ws ws_sid, System.Connection ws ws_sid ∈ later → JS.or_default ws_sid "0" ≠ s) →
  (∀ ws, ws ∈ set →
     ∃ ws_sid, JS.or_default ws_sid "0" = s ∧ System.Close ws ws_sid ∈ later) →
  let st' := System.exec (evs ++ System.AdminDisconnect w s :: later) Relay.init in
  Relay.uploaders st' !! s = None ∧ Relay.latest st' !! s = None.
Proof.
  intros Hset Hquiet Hconn Hclosed st'.
  assert (Hst : st' = System.exec later
                        (System.step (System.exec evs Relay.init)
                           (System.AdminDisconnect w s))).
  { unfold st', System.exec. by rewrite foldl_app. }
  rewrite Hst. split.
  - assert (Hne : set ≠ []).
    { apply (exec_keeps_uploader_sets_nonempty evs Relay.init
               (map_Forall_empty _) s set Hset). }
    rewrite (exec_uploaders_tally s later _ set).
    + destruct (foldl (Observed.tally s) set later) as [|x l] eqn:Hleft; [done|].
      assert (Hx : x ∈ foldl (Observed.tally s) set later)
        by (rewrite Hleft; by left).
      apply tally_members in Hx as [Hin Hopen]; [|done].
      destruct (Hclosed x Hin) as (ws_sid & Hkey & Hev).
      by apply (Hopen ws_sid) in Hev.
    + rewrite step_uploaders, Hset. by destruct set.
  - rewrite (exec_latest s later _ None).
    + by apply note_unpublished.
    + rewrite step_latest. apply lookup_delete_eq.
Qed.

Lemma disconnect_then_closes_clear_session_witness :
  let st' := System.exec
               ([System.Connection 5 (Some "7"); System.Message Relay.calm "7" Demo.F1]
                ++ System.AdminDisconnect Relay.calm "7"
                   :: [System.Message Relay.calm "8" Demo.F2; System.Close 5 (Some "7")])
               Relay.init in
  Relay.uploaders st' !! "7" = None ∧ Relay.latest st' !! "7" = None.
Proof.
  apply (disconnect_then_closes_clear_session
           [System.Connection 5 (Some "7"); System.Message Relay.calm "7" Demo.F1]
           [System.Message Relay.calm "8" Demo.F2; System.Close 5 (Some "7")]
           Relay.calm "7" [5]).
  - vm_compute. reflexivity.
  - intros ev Hin.
    repeat (apply elem_of_cons in Hin; destruct Hin as [-> | Hin]; [reflexivity|]).
    by apply elem_of_nil in Hin.
  - intros ws ws_sid Hin.
    repeat (apply elem_of_cons in Hin; destruct Hin as [Heq | Hin]; [discriminate|]).
    by apply elem_of_nil in Hin.
  - intros ws Hin. apply elem_of_cons in Hin as [-> | Hin];
      [|by apply elem_of_nil in Hin].
    exists (Some "7"). split; [reflexivity|].
    apply list_elem_of_further, list_elem_of_here.
Defined.

(** X17: a channel that connects and then closes leaves the uploader
    registry exactly as it found it, provided the channel was not already
    registered under its session key. *)
Theorem connect_then_close_restores_registry
    (evs : list System.event) (ws : JS.handle) (ws_sid : option string) :
  let st := System.exec evs Relay.init in
  (∀ set, Relay.uploaders st !! JS.or_default ws_sid "0" = Some set → ws ∉ set) →
  Relay.uploaders
    (System.step (System.step st (System.Connection ws ws_sid)) (System.Close ws ws_sid))
  = Relay.uploaders st.
Proof.
  intros st Hfresh.
  rewrite step_uploaders, on_close_uploaders, step_uploaders, on_connection_uploaders.
  rewrite lookup_alter_eq.
  destruct (Relay.uploaders st !! JS.or_default ws_sid "0") as [set|] eqn:Hset.
  - rewrite Hset. simpl. rewrite set_delete_add_fresh by by apply Hfresh.
    assert (Hne : set ≠ []).
    { apply (exec_keeps_uploader_sets_nonempty evs Relay.init
               (map_Forall_empty _) _ set Hset). }
    destruct set as [|a l]; [done|]. simpl.
    apply map_eq. intros k. destruct (decide (JS.or_default ws_sid "0" = k)) as [<-|Hk].
    + by rewrite lookup_insert_eq.
    + by rewrite lookup_insert_ne, lookup_alter_ne.
  - rewrite lookup_insert_eq. simpl.
    rewrite set_delete_add_fresh by apply not_elem_of_nil. simpl.
    apply map_eq. intros k. destruct (decide (JS.or_default ws_sid "0" = k)) as [<-|Hk].
    + by rewrite lookup_delete_eq.
    + by rewrite lookup_delete_ne, lookup_alter_ne, lookup_insert_ne.
Qed.

Lemma connect_then_close_restores_registry_witness :
  let st := System.exec [System.Connection 5 (Some "7")] Relay.init in
  Relay.uploaders
    (System.step (System.step st (System.Connection 6 (Some "7"))) (System.Close 6 (Some "7")))
  = Relay.uploaders st.
Proof.
  apply (connect_then_close_restores_registry [System.Connection 5 (Some "7")] 6 (Some "7")).
  intros set Hset. vm_compute in Hset. injection Hset as <-.
  intros Hin. apply elem_of_cons in Hin as [Heq | Hin]; [discriminate|].
  by apply elem_of_nil in Hin.
Defined.

(** ** What the status lists *)

(** X18: the [streams] list of [GET /status] of the second server names
    exactly the sessions that hold a frame, each once: those whose last
    frame was not removed by an administrative disconnect, whether or not
    their producer is still connected. *)
Theorem status_lists_sessions_with_frames
    (evs : list System.event) (req : Digest.request) (s : string) :
  let st := System.exec evs Relay.init in
  (s ∈ System.listed (Digest.get_status req st) ↔ is_Some (Observed.last_frame s evs)) ∧
  NoDup (System.listed (Digest.get_status req st)).
Proof.
  intros st. unfold Digest.get_status, System.listed. simpl. split.
  - rewrite streams_elem. unfold st.
    by rewrite (exec_latest s evs Relay.init None (lookup_empty _)).
  - apply NoDup_fst_map_to_list.
Qed.

(** ** Issuing tokens *)

Section IssueFacts.
Import JS Relay Issue.

Lemma clamp_bounds lo hi x y :
  (lo ≤ hi)%Z → clamp lo hi x = Some y → (lo ≤ y ≤ hi)%Z.
Proof.
  intros Hle. unfold clamp. destruct x as [z|]; simpl; [|done].
  intros [= <-]. lia.
Qed.

Lemma or_null_truthy x s : or_null x = Some s → x = Some s ∧ s ≠ EmptyString.
Proof.
  unfold or_null. destruct x as [t|]; [|done].
  destruct (truthy t) eqn:Ht; [|done]. intros [= ->]. by apply truthy_true in Ht.
Qed.

Lemma or_default_is x s : s ≠ EmptyString → or_default x EmptyString = s → x = Some s.
Proof.
  intros Hs. unfold or_default. destruct x as [t|]; [|congruence].
  destruct (truthy t); congruence.
Qed.
End IssueFacts.

(** X19: [POST /issue] hands out a token only when both the token secret
    and the API key are configured, the [X-API-Key] header equals the API
    key, the session id is a non-empty string of decimal digits and the
    scope is view, upload or admin; the token is what [jwt.sign] made of
    these, and its expiry, when [ttlSeconds] is numeric, lies between 30
    seconds and 7 days from now. *)
Theorem issued_tokens_are_well_formed
    (jwt_sign : string → string → option Z → string → option string)
    (e : Token.env) (now : Z) (req : Issue.request) (tok : string) (exp : option Z) :
  Issue.post_issue jwt_sign e now req = Issue.Issued tok exp →
  ∃ secret api_key,
    Token.JWT_SECRET e = Some secret ∧
    Token.API_KEY e = Some api_key ∧
    Issue.x_api_key req = Some api_key ∧
    Issue.qor (Issue.body_sid req) EmptyString ≠ EmptyString ∧
    Issue.all_digits (Issue.qor (Issue.body_sid req) EmptyString) = true ∧
    Issue.qor (Issue.body_scope req) EmptyString ∈ Issue.scopes ∧
    jwt_sign (Issue.qor (Issue.body_sid req) EmptyString)
             (Issue.qor (Issue.body_scope req) EmptyString) exp secret = Some tok ∧
    (∀ x, exp = Some x → (now + 30 ≤ x ≤ now + 604800)%Z).
Proof.
  unfold Issue.post_issue.
  destruct (Token.JWT_SECRET e) as [secret|] eqn:Hsec; [|done].
  destruct (Token.API_KEY e) as [api_key|] eqn:Hapi; [|done].
  destruct (String.eqb _ api_key) eqn:Hkey; simpl; [|done].
  destruct (JS.truthy (Issue.qor (Issue.body_sid req) EmptyString)) eqn:Hsid;
    simpl; [|done].
  destruct (Issue.all_digits _) eqn:Hdig; simpl; [|done].
  destruct (bool_decide _) eqn:Hscope; simpl; [|done].
  destruct (jwt_sign _ _ _ secret) as [token|] eqn:Hsign; [|done].
  intros [= <- <-]. exists secret, api_key.
  apply String.eqb_eq in Hkey. apply truthy_true in Hsid.
  apply bool_decide_eq_true in Hscope.
  split_and!; try done.
  - apply or_default_is; [|done]. by apply or_null_truthy in Hapi as [_ ?].
  - intros x Hx.
    destruct (Issue.clamp 30 (86400 * 7) _) as [t|] eqn:Hc; [|done].
    simpl in Hx. injection Hx as <-.
    apply clamp_bounds in Hc; lia.
Qed.

Lemma issued_tokens_are_well_formed_witness :
  ∃ secret api_key,
    Token.JWT_SECRET Demo.secure = Some secret ∧
    Token.API_KEY Demo.secure = Some api_key ∧
    Some "api" = Some api_key ∧
    Issue.qor (Some (JS.QStr "7")) EmptyString ≠ EmptyString ∧
    Issue.all_digits (Issue.qor (Some (JS.QStr "7")) EmptyString) = true ∧
    Issue.qor (Some (JS.QStr "view")) EmptyString ∈ Issue.scopes ∧
    Demo.signer (Issue.qor (Some (JS.QStr "7")) EmptyString)
      (Issue.qor (Some (JS.QStr "view")) EmptyString) (Some 1030%Z) secret
    = Some "k1.view.7" ∧
    (∀ x, Some 1030%Z = Some x → (1000 + 30 ≤ x ≤ 1000 + 604800)%Z).
Proof.
  apply (issued_tokens_are_well_formed
           Demo.signer Demo.secure 1000
           (Issue.mkRequest (Some "api") (Some (JS.QStr "7")) (Some (JS.QStr "view"))
              (Some (JS.QStr "5")))
           "k1.view.7" (Some 1030%Z)).
  vm_compute. reflexivity.
Defined.

(** X20: a well-formed [POST /issue] request without [ttlSeconds], or with
    an empty one, gets a token that expires one hour from now. *)
Theorem issue_defaults_to_one_hour
    (jwt_sign : string → string → option Z → string → option string)
    (e : Token.env) (now : Z) (req : Issue.request) (secret api_key : string) :
  Token.JWT_SECRET e = Some secret →
  Token.API_KEY e = Some api_key →
  Issue.x_api_key req = Some api_key →
  Issue.qor (Issue.body_sid req) EmptyString ≠ EmptyString →
  Issue.all_digits (Issue.qor (Issue.body_sid req) EmptyString) = true →
  Issue.qor (Issue.body_scope req) EmptyString ∈ Issue.scopes →
  Issue.body_ttlSeconds req = None ∨ Issue.body_ttlSeconds req = Some (JS.QStr EmptyString) →
  Issue.post_issue jwt_sign e now req =
    match jwt_sign (Issue.qor (Issue.body_sid req) EmptyString)
                   (Issue.qor (Issue.body_scope req) EmptyString)
                   (Some (now + 3600)%Z) secret with
    | Some tok => Issue.Issued tok (Some (now + 3600)%Z)
    | None => Issue.Crashed
    end.
Proof.
  intros Hsec Hapi Hkey Hsid Hdig Hscope Httl.
  unfold Issue.post_issue. rewrite Hsec, Hapi, Hkey.
  assert (Hk : JS.or_default (Some api_key) EmptyString = api_key).
  { apply or_default_id. by apply or_null_truthy in Hapi as [_ ?]. }
  rewrite Hk, String.eqb_refl. simpl.
  apply truthy_true in Hsid. rewrite Hsid, Hdig. simpl.
  rewrite bool_decide_eq_true_2 by done. simpl.
  assert (Hq : Issue.qor (Issue.body_ttlSeconds req) "3600" = "3600")
    by (destruct Httl as [-> | ->]; reflexivity).
  rewrite Hq. reflexivity.
Qed.

Lemma issue_defaults_to_one_hour_witness :
  Issue.post_issue Demo.signer Demo.secure 1000
    (Issue.mkRequest (Some "api") (Some (JS.QStr "7")) (Some (JS.QStr "upload")) None)
  = Issue.Issued "k1.upload.7" (Some 4600%Z).
Proof.
  rewrite (issue_defaults_to_one_hour
             Demo.signer Demo.secure 1000
             (Issue.mkRequest (Some "api") (Some (JS.QStr "7")) (Some (JS.QStr "upload")) None)
             "k1" "api");
    [reflexivity | reflexivity | reflexivity | reflexivity | discriminate | reflexivity
     | vm_compute; apply list_elem_of_further, list_elem_of_here | by left].
Defined.

(** X21: the frame rate the uploader page is built with lies between 1
    and 30 whenever it is a number at all, and is the default of the
    server, 12 in [server.js] and 8 in the second server, when the [fps]
    query parameter is absent or empty. *)
Theorem uploader_fps_in_range (d : string) (q_fps : option JS.qval) :
  (∀ x, Issue.uploader_fps d q_fps = Some x → (1 ≤ x ≤ 30)%Z) ∧
  (q_fps = None ∨ q_fps = Some (JS.QStr EmptyString) →
   Issue.uploader_fps "12" q_fps = Some 12%Z ∧ Issue.uploader_fps "8" q_fps = Some 8%Z).
Proof.
  split.
  - intros x Hx. unfold Issue.uploader_fps in Hx. apply clamp_bounds in Hx; lia.
  - by intros [-> | ->].
Qed.

Lemma uploader_fps_in_range_witness :
  Issue.uploader_fps "12" (Some (JS.QStr " 250fps")) = Some 30%Z ∧
  Issue.uploader_fps "12" None = Some 12%Z.
Proof.
  destruct (uploader_fps_in_range "12" None) as [_ H].
  split; [reflexivity|]. apply H. by left.
Defined.

(** ** Failing and late watchers *)

(** X22: in every state the server can reach, a watcher of a session on
    which a write of [pushFrame] throws receives the writes that precede
    the throw, then one call of [res.end()], and nothing after it. *)
Theorem failed_watcher_is_ended
    (evs : list System.event) (w : Relay.world) (sid : string) (buf : JS.Buffer)
    (res : JS.handle) (set : list JS.handle) :
  let st := System.exec evs Relay.init in
  Relay.watchers st !! sid = Some set →
  res ∈ set →
  Relay.write_fault w res ≠ None →
  ∃ new,
    Relay.trace (Relay.run (Relay.pushFrame w sid buf) st) = Relay.trace st ++ new ∧
    filter (λ eff, Observed.target eff = res) new
      = Observed.written w buf res ++ [Relay.ResEnd res].
Proof.
  intros st Hset Hres Hbad. unfold Relay.run. rewrite pushFrame_spec. simpl.
  eexists. split; [reflexivity|]. rewrite Hset. simpl.
  assert (Hnd : NoDup set).
  { apply (exec_watchers_nodup evs Relay.init (map_Forall_empty _) sid set Hset). }
  rewrite filter_target_once by done.
  unfold System.attempt, Observed.written.
  by destruct (Relay.write_fault w res) as [[]|].
Qed.

Lemma failed_watcher_is_ended_witness :
  let st := System.exec [System.Mjpg Relay.calm "7" 1; System.Mjpg Relay.calm "7" 2]
              Relay.init in
  ∃ new,
    Relay.trace (Relay.run (Relay.pushFrame Demo.flaky "7" Demo.F1) st)
      = Relay.trace st ++ new ∧
    filter (λ eff, Observed.target eff = 2) new
      = Observed.written Demo.flaky Demo.F1 2 ++ [Relay.ResEnd 2].
Proof.
  apply (failed_watcher_is_ended
           [System.Mjpg Relay.calm "7" 1; System.Mjpg Relay.calm "7" 2]
           Demo.flaky "7" Demo.F1 2 [1; 2]).
  - vm_compute. reflexivity.
  - apply list_elem_of_further, list_elem_of_here.
  - simpl. discriminate.
Defined.


